(** * Schema Compare result panel: difference tree, rows and panel state

    A shallow embedding of the class [SchemaCompareResult]
    (src/src/vs/workbench/common/contextkeys.ts, second document of the file):
    the difference tree handed over by the comparison provider, the row
    building of [getAllDifferences], the script aggregation of
    [getAggregatedScript], and the panel as a state record on which
    [execute], [reExecute] and the button handlers act. *)

From Stdlib Require Import Ascii.
From stdpp Require Import base option list gmap strings pretty.

Local Open Scope string_scope.
Local Open Scope list_scope.
Local Set Warnings "-register-all".

(** ** Strings *)

(** The line feed: the text ['\n'] of the source. *)
Definition newline : string := String (Ascii.ascii_of_nat 10) "".

(** Concatenation of a list of strings, left to right. *)
Definition concat_strings (l : list string) : string := foldr String.app "" l.

(** ** JavaScript values that reach the panel *)

(** A nullable string field ([string] without strict null checks):
    [None] is [null]. *)
Abbreviation nullable := option (only parsing).

(** String coercion as performed by [+] and [+=] when the other operand is a
    string: [null] becomes the four characters [null]. *)
Definition to_js_string (v : nullable string) : string :=
  match v with
  | Some s => s
  | None => "null"
  end.

(** Truthiness of a nullable string: [null] and the empty string are falsy. *)
Definition truthy (v : nullable string) : bool :=
  match v with
  | Some s => negb (String.eqb s "")
  | None => false
  end.

(** ** The azdata data model *)

(** Modelled from the spec: the azdata declarations (azdata.d.ts) are not
    among the sources; the difference type is [Object] or something else. *)
Inductive SchemaDifferenceType := Object | OtherDifference.

(** Modelled from the spec: the update actions of azdata.d.ts. *)
Inductive SchemaUpdateAction := Delete | Change | Add.

(** Modelled from the spec: the endpoint type is [database] or something
    else. *)
Inductive SchemaCompareEndpointType := database | otherEndpoint.

Global Instance SchemaDifferenceType_eq_dec : EqDecision SchemaDifferenceType.
Proof. solve_decision. Defined.
Global Instance SchemaUpdateAction_eq_dec : EqDecision SchemaUpdateAction.
Proof. solve_decision. Defined.
Global Instance SchemaCompareEndpointType_eq_dec :
  EqDecision SchemaCompareEndpointType.
Proof. solve_decision. Defined.

Global Instance SchemaUpdateAction_countable : Countable SchemaUpdateAction.
Proof.
  refine (inj_countable'
    (λ a, match a with Delete => 0 | Change => 1 | Add => 2 end)
    (λ n, match n with 0 => Delete | 1 => Change | _ => Add end) _).
  by intros [].
Defined.

(** [azdata.DiffEntry]: the fields the panel reads.  The children form a
    finite tree. *)
Inductive DiffEntry := mkDiffEntry {
  updateAction : SchemaUpdateAction;
  differenceType : SchemaDifferenceType;
  name : string;
  sourceValue : nullable string;
  targetValue : nullable string;
  children : list DiffEntry;
  sourceScript : nullable string;
  targetScript : nullable string
}.

Definition with_children (d : DiffEntry) (cs : list DiffEntry) : DiffEntry :=
  mkDiffEntry (updateAction d) (differenceType d) (name d) (sourceValue d)
    (targetValue d) cs (sourceScript d) (targetScript d).

(** [azdata.SchemaCompareEndpointInfo]. *)
Record SchemaCompareEndpointInfo := mkEndpointInfo {
  endpointType : SchemaCompareEndpointType;
  databaseName : string
}.

(** [azdata.SchemaCompareResult], the provider's answer.  [differences] is
    an array, as the specification gives it; an answer whose [differences]
    is [null] is not described by this record (on such an answer
    [getAllDifferences] would throw at [forEach]). *)
Record ComparisonResult := mkComparisonResult {
  success : bool;
  errorMessage : nullable string;
  differences : list DiffEntry;
  operationId : string
}.

(** ** getAggregatedScript *)

(** The script field chosen by [getSourceScript ? sourceScript : targetScript]. *)
Definition pick (d : DiffEntry) (getSourceScript : bool) : nullable string :=
  if getSourceScript then sourceScript d else targetScript d.

(** One round of the [forEach] body: [script += childScript] unless the
    child's text is the string [null]. *)
Definition add_child (script childScript : string) : string :=
  if bool_decide (childScript ≠ "null") then script +:+ childScript else script.

(** The branch [diffEntry !== null] of [getAggregatedScript]: the script
    starts empty, receives the chosen field by [+=], then every child's
    aggregate in turn. *)
Fixpoint getAggregatedScript_entry (diffEntry : DiffEntry)
    (getSourceScript : bool) : string :=
  fold_left
    (λ script child,
       add_child script (getAggregatedScript_entry child getSourceScript))
    (children diffEntry)
    ("" +:+ to_js_string (pick diffEntry getSourceScript)).

(** [getAggregatedScript(diffEntry, getSourceScript)]: for [null] the initial
    [script = ''] is returned as it is. *)
Definition getAggregatedScript (diffEntry : nullable DiffEntry)
    (getSourceScript : bool) : string :=
  match diffEntry with
  | Some d => getAggregatedScript_entry d getSourceScript
  | None => ""
  end.

(** What a child adds to its parent's script. *)
Definition contribution (child : DiffEntry) (getSourceScript : bool) : string :=
  let childScript := getAggregatedScript (Some child) getSourceScript in
  if bool_decide (childScript = "null") then "" else childScript.

(** ** getAllDifferences *)

(** A table row: an array of cells, each a string or [null]/[undefined]
    (written [None]). *)
Abbreviation Row := (list (nullable string)) (only parsing).

(** [nls.loadMessageBundle()] with no translation loaded: [localize] answers
    the default message, [{0}] replaced by the argument. *)
Fixpoint format0 (message arg : string) : string :=
  match message with
  | String "{"%char (String "0"%char (String "}"%char rest)) =>
      arg +:+ format0 rest arg
  | String c rest => String c (format0 rest arg)
  | EmptyString => EmptyString
  end.

Definition localize (key message : string) : string := message.
Definition localize1 (key message arg : string) : string := format0 message arg.

(** The constructor's [SchemaCompareActionMap]: an object used as a map, with
    one label stored under each update action. *)
Definition SchemaCompareActionMap : gmap SchemaUpdateAction string :=
  <[Add := localize "schemaCompare.addAction" "Add"]>
    (<[Change := localize "schemaCompare.changeAction" "Change"]>
      (<[Delete := localize "schemaCompare.deleteAction" "Delete"]> ∅)).

(** The array literal pushed by [getAllDifferences]. *)
Definition row_of (difference : DiffEntry) : Row :=
  [ Some (name difference);
    sourceValue difference;
    SchemaCompareActionMap !! updateAction difference;
    targetValue difference ].

(** The two nested conditions of the [forEach] body. *)
Definition is_object (difference : DiffEntry) : bool :=
  bool_decide (differenceType difference = Object).

Definition has_value (difference : DiffEntry) : bool :=
  bool_decide (sourceValue difference ≠ None)
  || bool_decide (targetValue difference ≠ None).

(** [getAllDifferences(differences)]: [data] starts empty and grows by
    [push]. *)
Definition getAllDifferences (differences : list DiffEntry) : list Row :=
  fold_left
    (λ data difference,
       if is_object difference then
         if has_value difference then data ++ [row_of difference] else data
       else data)
    differences [].

(** The filter as one predicate, for the statements below. *)
Definition qualifies (difference : DiffEntry) : bool :=
  is_object difference && has_value difference.

(** ** The panel *)

(** The components laid out by the panel. *)
Inductive Component :=
  | Toolbar
  | SourceTargetFlexLayout
  | Loader
  | SplitView
  | NoDifferencesLabel
  | DifferencesTable
  | DiffEditorPanes.

Global Instance Component_eq_dec : EqDecision Component.
Proof. solve_decision. Defined.

(** Modelled from the spec: the widget toolkit of the host (flex and split
    view containers) is not among the sources.  A container holds its items
    in order; [addItem] appends. *)
Definition addItem (item : Component) (items : list Component) : list Component :=
  items ++ [item].

(** Modelled from the spec: the widget toolkit of the host is not among the
    sources.  [removeItem] takes out the first occurrence of the component
    and leaves a container without it unchanged. *)
Fixpoint removeItem (item : Component) (items : list Component) : list Component :=
  match items with
  | [] => []
  | x :: rest => if decide (x = item) then rest else x :: removeItem item rest
  end.

(** A column description of [differencesTable.updateProperties]. *)
Record Column := mkColumn {
  value : string;
  cssClass : string;
  width : nullable nat
}.

Record Table := mkTable {
  data : list Row;
  columns : list Column;
  selectedRows : nullable (list nat)
}.

Record DiffEditor := mkDiffEditor {
  contentLeft : string;
  contentRight : string
}.

(** The fields of a [SchemaCompareResult] object that change over its life:
    a button is its [enabled] flag, a container its items.  The last three
    fields record what the panel did to its surroundings: the messages passed
    to [showErrorMessage], the arguments of the [schemaCompare] calls, and how
    many of these calls are still unanswered. *)
Record Panel := mkPanel {
  sourceName : string;
  targetName : string;
  sourceEndpointInfo : SchemaCompareEndpointInfo;
  targetEndpointInfo : SchemaCompareEndpointInfo;
  sourceDropdown : list string;
  targetDropdown : list string;
  comparisonResult : nullable ComparisonResult;
  flexModel : list Component;
  splitView : list Component;
  differencesTable : Table;
  diffEditor : DiffEditor;
  compareButton : bool;
  switchButton : bool;
  generateScriptButton : bool;
  shownErrors : list string;
  compareCalls : list (SchemaCompareEndpointInfo * SchemaCompareEndpointInfo);
  awaiting : nat
}.

(** Field assignments. *)
Definition set_comparisonResult v '(mkPanel a b c d e f _ h i j k l m n o q r) :=
  mkPanel a b c d e f v h i j k l m n o q r.
Definition set_flexModel v '(mkPanel a b c d e f g _ i j k l m n o q r) :=
  mkPanel a b c d e f g v i j k l m n o q r.
Definition set_splitView v '(mkPanel a b c d e f g h _ j k l m n o q r) :=
  mkPanel a b c d e f g h v j k l m n o q r.
Definition set_differencesTable v '(mkPanel a b c d e f g h i _ k l m n o q r) :=
  mkPanel a b c d e f g h i v k l m n o q r.
Definition set_diffEditor v '(mkPanel a b c d e f g h i j _ l m n o q r) :=
  mkPanel a b c d e f g h i j v l m n o q r.
Definition set_compareButton v '(mkPanel a b c d e f g h i j k _ m n o q r) :=
  mkPanel a b c d e f g h i j k v m n o q r.
Definition set_switchButton v '(mkPanel a b c d e f g h i j k l _ n o q r) :=
  mkPanel a b c d e f g h i j k l v n o q r.
Definition set_generateScriptButton v '(mkPanel a b c d e f g h i j k l m _ o q r) :=
  mkPanel a b c d e f g h i j k l m v o q r.
Definition set_shownErrors v '(mkPanel a b c d e f g h i j k l m n _ q r) :=
  mkPanel a b c d e f g h i j k l m n v q r.
Definition set_compareCalls v '(mkPanel a b c d e f g h i j k l m n o _ r) :=
  mkPanel a b c d e f g h i j k l m n o v r.
Definition set_awaiting v '(mkPanel a b c d e f g h i j k l m n o q _) :=
  mkPanel a b c d e f g h i j k l m n o q v.

(** [vscode.window.showErrorMessage]. *)
Definition showErrorMessage (message : string) (p : Panel) : Panel :=
  set_shownErrors (shownErrors p ++ [message]) p.

(** How a call ends: by returning, or by a thrown [TypeError] that leaves
    the object as it was at that moment. *)
Inductive completion :=
  | Returned (p : Panel)
  | Threw (p : Panel).

Definition state_of (c : completion) : Panel :=
  match c with Returned p | Threw p => p end.

(** The constructor with the [registerContent] callback: the table is empty,
    both panes hold a line feed, every button is disabled, and the loader is
    the third item of the flex container. *)
Definition created (sourceName targetName : string)
    (sourceEndpointInfo targetEndpointInfo : SchemaCompareEndpointInfo) : Panel :=
  {| sourceName := sourceName;
     targetName := targetName;
     sourceEndpointInfo := sourceEndpointInfo;
     targetEndpointInfo := targetEndpointInfo;
     sourceDropdown := [sourceName];
     targetDropdown := [targetName];
     comparisonResult := None;
     flexModel :=
       addItem Loader (addItem SourceTargetFlexLayout (addItem Toolbar []));
     splitView := [];
     differencesTable := mkTable [] [] None;
     diffEditor := mkDiffEditor newline newline;
     compareButton := false;
     switchButton := false;
     generateScriptButton := false;
     shownErrors := [];
     compareCalls := [];
     awaiting := 0 |}.

(** The column headings of [execute]. *)
Definition result_columns : list Column :=
  [ mkColumn (localize "schemaCompare.typeColumn" "Type")
      "align-with-header" (Some 50);
    mkColumn (localize "schemaCompare.sourceNameColumn" "Source Name")
      "align-with-header" None;
    mkColumn (localize "schemaCompare.actionColumn" "Action")
      "align-with-header" (Some 30);
    mkColumn (localize "schemaCompare.targetNameColumn" "Target Name")
      "align-with-header" None ].

(** [execute] up to the point where it waits for the provider:
    [service.schemaCompare] is called with the two endpoints. *)
Definition execute_call (p : Panel) : Panel :=
  let p :=
    set_compareCalls
      (compareCalls p ++ [(sourceEndpointInfo p, targetEndpointInfo p)]) p in
  set_awaiting (S (awaiting p)) p.

(** [execute] from the provider's answer on.  With [null] for an answer the
    test [!this.comparisonResult] holds and the argument
    [this.comparisonResult.errorMessage] of the message is read from [null],
    which throws before anything is shown. *)
Definition execute_resume (p : Panel) (answer : nullable ComparisonResult)
    : completion :=
  let p := set_comparisonResult answer p in
  match answer with
  | None => Threw p
  | Some result =>
      let p :=
        if negb (success result) then
          showErrorMessage
            (localize1 "schemaCompare.compareErrorMessage"
               "Schema Compare failed '{0}'"
               (if truthy (errorMessage result)
                then to_js_string (errorMessage result) else "Unknown")) p
        else p in
      let data := getAllDifferences (differences result) in
      let p :=
        set_differencesTable
          (mkTable data result_columns (selectedRows (differencesTable p))) p in
      let p := set_splitView (addItem DifferencesTable (splitView p)) p in
      let p := set_splitView (addItem DiffEditorPanes (splitView p)) p in
      let p := set_flexModel (removeItem Loader (flexModel p)) p in
      let p := set_switchButton true p in
      let p := set_compareButton true p in
      let p :=
        if decide (endpointType (targetEndpointInfo p) = database)
        then set_generateScriptButton true p else p in
      let p :=
        if decide (0 < length (differences result))
        then set_flexModel (addItem SplitView (flexModel p)) p
        else set_flexModel (addItem NoDifferencesLabel (flexModel p)) p in
      Returned p
  end.

(** [start]: the editor is opened and [execute] begins. *)
Definition start (p : Panel) : Panel := execute_call p.

(** The [onRowSelected] handler installed by [execute], after the table has
    recorded the selection. *)
Definition onRowSelected (rows : list nat) (p : Panel) : Panel :=
  let t := differencesTable p in
  let p := set_differencesTable (mkTable (data t) (columns t) (Some rows)) p in
  match comparisonResult p, rows !! 0 with
  | Some result, Some i =>
      match differences result !! i with
      | Some difference =>
          let sourceText :=
            if decide (sourceScript difference = None) then newline
            else getAggregatedScript (Some difference) true in
          let targetText :=
            if decide (targetScript difference = None) then newline
            else getAggregatedScript (Some difference) false in
          set_diffEditor (mkDiffEditor sourceText targetText) p
      | None => p
      end
  | _, _ => p
  end.

(** [reExecute]. *)
Definition reExecute (p : Panel) : Panel :=
  let p := set_flexModel (removeItem SplitView (flexModel p)) p in
  let p := set_flexModel (removeItem NoDifferencesLabel (flexModel p)) p in
  let p := set_flexModel (addItem Loader (flexModel p)) p in
  let p := set_diffEditor (mkDiffEditor newline newline) p in
  let t := differencesTable p in
  let p := set_differencesTable (mkTable (data t) (columns t) None) p in
  let p := set_compareButton false p in
  let p := set_switchButton false p in
  let p := set_generateScriptButton false p in
  execute_call p.

(** The click handler of the compare button. *)
Definition compareButton_onDidClick (p : Panel) : Panel := reExecute p.

(** The click handler of the switch button: the three swaps, then
    [reExecute]. *)
Definition switchButton_onDidClick (p : Panel) : Panel :=
  reExecute
    {| sourceName := targetName p;
       targetName := sourceName p;
       sourceEndpointInfo := targetEndpointInfo p;
       targetEndpointInfo := sourceEndpointInfo p;
       sourceDropdown := targetDropdown p;
       targetDropdown := sourceDropdown p;
       comparisonResult := comparisonResult p;
       flexModel := flexModel p;
       splitView := splitView p;
       differencesTable := differencesTable p;
       diffEditor := diffEditor p;
       compareButton := compareButton p;
       switchButton := switchButton p;
       generateScriptButton := generateScriptButton p;
       shownErrors := shownErrors p;
       compareCalls := compareCalls p;
       awaiting := awaiting p |}.

(** ** The generate-script button *)

(** The readings of [new Date()] used by the handler; [getMonth] counts from
    zero. *)
Record Date := mkDate {
  getFullYear : nat;
  getMonth : nat;
  getDate : nat;
  getHours : nat;
  getMinutes : nat
}.

(** Operands of [+]: numbers and strings. *)
Inductive jsvalue :=
  | JNumber (n : nat)
  | JString (s : string).

Definition js_to_string (v : jsvalue) : string :=
  match v with
  | JNumber n => pretty n
  | JString s => s
  end.

(** The operator [+]: the sum of two numbers, otherwise the concatenation of
    both operands as strings. *)
Definition js_plus (a b : jsvalue) : jsvalue :=
  match a, b with
  | JNumber x, JNumber y => JNumber (x + y)
  | _, _ => JString (js_to_string a +:+ js_to_string b)
  end.

Declare Scope js_scope.
Delimit Scope js_scope with js.
Infix "+" := js_plus (at level 50, left associativity) : js_scope.

(** [let datetime = now.getFullYear() + '-' + (now.getMonth() + 1) + ...]. *)
Definition datetime (now : Date) : jsvalue :=
  (JNumber (getFullYear now) + JString "-" + (JNumber (getMonth now) + JNumber 1)
   + JString "-" + JNumber (getDate now) + JString "-" + JNumber (getHours now)
   + JString "-" + JNumber (getMinutes now))%js.

(** [this.targetName + '_Update_' + datetime + '.sql']. *)
Definition defaultFileName (p : Panel) (now : Date) : string :=
  js_to_string
    (JString (targetName p) + JString "_Update_" + datetime now
     + JString ".sql")%js.

(** [path.join] belongs to Node; a joined path is kept as its two
    arguments. *)
Inductive Path := path_join (directory fileName : string).

Record SaveDialogOptions := mkSaveDialogOptions {
  defaultUri : Path;
  saveLabel : string;
  filters : list (string * list string)
}.

(** The click handler up to [showSaveDialog]: the options it passes, given
    the current time and [os.homedir()]. *)
Definition generateScriptButton_onDidClick_dialog (p : Panel) (now : Date)
    (homedir : string) : SaveDialogOptions :=
  let defaultFilePath := path_join homedir (defaultFileName p now) in
  {| defaultUri := defaultFilePath;
     saveLabel := localize "schemaCompare.saveFile" "Save";
     filters := [("SQL Files", ["sql"])] |}.

(** [azdata.ResultStatus]. *)
Record ResultStatus := mkResultStatus {
  status_success : bool;
  status_errorMessage : nullable string
}.

(** The click handler after the dialog: nothing happens without a file; the
    provider's answer is treated as in [execute]. *)
Definition generateScriptButton_onDidClick_resume (p : Panel)
    (fileUri : nullable string) (result : nullable ResultStatus) : completion :=
  match fileUri with
  | None => Returned p
  | Some _ =>
      match result with
      | None => Threw p
      | Some status =>
          if negb (status_success status) then
            Returned
              (showErrorMessage
                 (localize1 "schemaCompare.generateScriptErrorMessage"
                    "Generate Script failed '{0}'"
                    (if truthy (status_errorMessage status)
                     then to_js_string (status_errorMessage status)
                     else "Unknown")) p)
          else Returned p
      end
  end.

(** ** The panel as a transition system *)

(** What can happen to an open panel: the provider answers an outstanding
    [schemaCompare] call, an enabled button is clicked, a row is selected. *)
Inductive event :=
  | CompareAnswered (answer : nullable ComparisonResult)
  | CompareClicked
  | SwitchClicked
  | GenerateScriptClicked (fileUri : nullable string)
      (result : nullable ResultStatus)
  | RowSelected (rows : list nat).

(** The continuation of [execute] on the provider's answer, if a call is
    outstanding. *)
Definition answered (p : Panel) (answer : nullable ComparisonResult)
    : option completion :=
  match awaiting p with
  | S n => Some (execute_resume (set_awaiting n p) answer)
  | 0 => None
  end.

Definition step (p : Panel) (e : event) : option Panel :=
  match e with
  | CompareAnswered answer => state_of <$> answered p answer
  | CompareClicked =>
      if compareButton p then Some (compareButton_onDidClick p) else None
  | SwitchClicked =>
      if switchButton p then Some (switchButton_onDidClick p) else None
  | GenerateScriptClicked fileUri result =>
      if generateScriptButton p
      then Some (state_of (generateScriptButton_onDidClick_resume p fileUri result))
      else None
  | RowSelected rows => Some (onRowSelected rows p)
  end.

(** The states a panel passes through after [start]. *)
Inductive reachable : Panel → Prop :=
  | reachable_start sourceName targetName sourceEndpointInfo targetEndpointInfo :
      reachable
        (start (created sourceName targetName sourceEndpointInfo targetEndpointInfo))
  | reachable_step p e p' :
      reachable p → step p e = Some p' → reachable p'.

(** A component is on screen when the flex container holds it, or the split
    view holds it and the flex container holds the split view. *)
Definition displayed (p : Panel) (c : Component) : Prop :=
  c ∈ flexModel p ∨ (SplitView ∈ flexModel p ∧ c ∈ splitView p).

(** Loading: the loader is shown.  Populated: the loader is gone and either
    the split view or the no-differences label has taken its place. *)
Definition Loading (p : Panel) : Prop := Loader ∈ flexModel p.

Definition Populated (p : Panel) : Prop :=
  (Loader ∉ flexModel p)
  ∧ (SplitView ∈ flexModel p ∨ NoDifferencesLabel ∈ flexModel p).

Global Instance displayed_dec (p : Panel) (c : Component) :
  Decision (displayed p c).
Proof. unfold displayed. apply _. Defined.
Global Instance Loading_dec (p : Panel) : Decision (Loading p).
Proof. unfold Loading. apply _. Defined.
Global Instance Populated_dec (p : Panel) : Decision (Populated p).
Proof. unfold Populated. apply _. Defined.

(** Modelled from the spec: the table component of the host is not among
    the sources; the cells of a row are paired with the columns by position.
    [cell_under] is the cell of a row that stands under the column with the
    given heading. *)
Definition column_index (heading : string) (cols : list Column) : option nat :=
  fst <$> list_find (λ col, value col = heading) cols.

Definition cell_under (cols : list Column) (heading : string) (row : Row)
    : nullable string :=
  i ← column_index heading cols; mjoin (row !! i).

(** A cell without a value: [null], [undefined], or the empty text. *)
Definition empty_cell (cell : nullable string) : Prop :=
  cell = None ∨ cell = Some "".

(** ** Sample data *)

(** The node of the specification's scenario. *)
Definition table1 : DiffEntry :=
  {| updateAction := Delete;
     differenceType := Object;
     name := "Table1";
     sourceValue := Some "CREATE TABLE T1";
     targetValue := None;
     children := [];
     sourceScript := Some "CREATE TABLE T1;";
     targetScript := None |}.

Definition leaf (own : nullable string) : DiffEntry :=
  {| updateAction := Change;
     differenceType := OtherDifference;
     name := "leaf";
     sourceValue := None;
     targetValue := None;
     children := [];
     sourceScript := own;
     targetScript := own |}.

Definition parentAB : DiffEntry :=
  {| updateAction := Change;
     differenceType := Object;
     name := "parent";
     sourceValue := Some "P";
     targetValue := Some "P";
     children := [leaf None; leaf (Some "B")];
     sourceScript := Some "A";
     targetScript := Some "A" |}.

Definition dbEndpoint : SchemaCompareEndpointInfo := mkEndpointInfo database "db".
Definition fileEndpoint : SchemaCompareEndpointInfo :=
  mkEndpointInfo otherEndpoint "".

(** A panel waiting for its first answer. *)
Definition loadingPanel : Panel := start (created "src" "tgt" fileEndpoint dbEndpoint).

(** ** The display contract in the specification's words *)

(** The label of an update action as the specification lists it. *)
Definition actionLabel_spec (action : SchemaUpdateAction) : string :=
  match action with
  | Delete => "Delete"
  | Change => "Change"
  | Add => "Add"
  end.

(** The row the specification asks for. *)
Definition row_spec (node : DiffEntry) : Row :=
  [ Some (name node);
    sourceValue node;
    Some (actionLabel_spec (updateAction node));
    targetValue node ].

(** The nodes the specification keeps: of type Object, with a source or a
    target value. *)
Definition qualifies_spec (node : DiffEntry) : Prop :=
  differenceType node = Object
  ∧ (sourceValue node ≠ None ∨ targetValue node ≠ None).

Global Instance qualifies_spec_dec (node : DiffEntry) :
  Decision (qualifies_spec node).
Proof. unfold qualifies_spec. apply _. Defined.


(** ** The shape of the states after [start] *)

(** Either the panel is loading (the loader is the third item, every button
    is disabled, at most one call is unanswered), or it shows a result
    (nothing is awaited, compare and switch are enabled, generate-script is
    enabled exactly for a database target, and the third item is the split
    view or the no-differences label). *)
Definition panel_invariant (p : Panel) : Prop :=
  (flexModel p = [Toolbar; SourceTargetFlexLayout; Loader]
   ∧ (awaiting p ≤ 1)%nat
   ∧ compareButton p = false
   ∧ switchButton p = false
   ∧ generateScriptButton p = false)
  ∨ (awaiting p = 0
     ∧ compareButton p = true
     ∧ switchButton p = true
     ∧ (generateScriptButton p = true
        ↔ endpointType (targetEndpointInfo p) = database)
     ∧ (flexModel p = [Toolbar; SourceTargetFlexLayout; SplitView]
        ∨ flexModel p = [Toolbar; SourceTargetFlexLayout; NoDifferencesLabel])).

(** A successful answer with the scenario's node, a failed one carrying the
    same node, and a failed one without differences. *)
Definition goodAnswer : ComparisonResult :=
  mkComparisonResult true None [table1] "op-1".
Definition failedAnswer : ComparisonResult :=
  mkComparisonResult false (Some "boom") [table1] "op-2".
Definition failedEmptyAnswer : ComparisonResult :=
  mkComparisonResult false None [] "op-3".

(** The first panel after the successful answer. *)
Definition populatedPanel : Panel :=
  state_of (execute_resume (set_awaiting 0 loadingPanel) (Some goodAnswer)).

(** A quarter past eight on the ninth of April 2019. *)
Definition sampleDate : Date := mkDate 2019 3 9 8 15.

(** ** Notions used by the further properties *)

(** The scripts of a tree for one side in pre-order, each as [+=] writes
    it. *)
Fixpoint all_scripts (d : DiffEntry) (getSourceScript : bool) : list string :=
  to_js_string (pick d getSourceScript)
  :: flat_map (λ child, all_scripts child getSourceScript) (children d).

(** The proper descendants of an entry, in pre-order. *)
Fixpoint descendants (d : DiffEntry) : list DiffEntry :=
  flat_map (λ child, child :: descendants child) (children d).

(** Names, endpoints and dropdown values: what the switch button exchanges. *)
Definition direction (p : Panel) :
    string * string * SchemaCompareEndpointInfo * SchemaCompareEndpointInfo
    * list string * list string :=
  (sourceName p, targetName p, sourceEndpointInfo p, targetEndpointInfo p,
   sourceDropdown p, targetDropdown p).

(** A panel that shows the loader, awaits no answer and has every button
    disabled. *)
Definition stuck (p : Panel) : Prop :=
  flexModel p = [Toolbar; SourceTargetFlexLayout; Loader]
  ∧ awaiting p = 0
  ∧ compareButton p = false
  ∧ switchButton p = false
  ∧ generateScriptButton p = false.

(** A parent with a script of its own and two children with scripts. *)
Definition parentXYZ : DiffEntry :=
  {| updateAction := Change;
     differenceType := Object;
     name := "parent";
     sourceValue := Some "P";
     targetValue := Some "P";
     children := [leaf (Some "Y"); leaf (Some "Z")];
     sourceScript := Some "X";
     targetScript := Some "X" |}.

(** A child without a script of its own above a grandchild with one. *)
Definition nullAboveB : DiffEntry :=
  with_children (leaf None) [leaf (Some "B")].

(** Several events in a row; [None] when one of them cannot happen. *)
Fixpoint run (p : Panel) (events : list event) : option Panel :=
  match events with
  | [] => Some p
  | e :: rest => p' ← step p e; run p' rest
  end.

(** A successful answer whose only difference is not of type Object. *)
Definition unlistedAnswer : ComparisonResult :=
  mkComparisonResult true None [leaf (Some "S")] "op-4".

(** How many of the events are clicks on compare or switch, and how many
    are answers of the provider. *)
Definition is_click (e : event) : bool :=
  match e with
  | CompareClicked | SwitchClicked => true
  | _ => false
  end.

Definition is_answer (e : event) : bool :=
  match e with
  | CompareAnswered _ => true
  | _ => false
  end.

Definition clicks (events : list event) : nat :=
  length (List.filter is_click events).

Definition answers (events : list event) : nat :=
  length (List.filter is_answer events).

(** Whether a character occurs in a string. *)
Fixpoint has_char (c : ascii) (s : string) : bool :=
  match s with
  | EmptyString => false
  | String a rest => Ascii.eqb a c || has_char c rest
  end.

(** ** The rest of a generate-script click *)

(** The generate-script handler waits twice, for the save dialog and for
    the provider, and nothing disables compare or switch meanwhile: the
    rest of an earlier click can run at any later moment, whatever has
    happened to the panel in between.  An occurrence is an event of [step],
    the closing of a save dialog opened by an earlier click, or the
    provider's answer to a generate-script call made by an earlier click. *)
Inductive occurrence :=
  | Event (e : event)
  | SaveDialogClosed (fileUri : nullable string)
  | GenerateScriptAnswered (uri : string) (status : nullable ResultStatus).

(** The handler between the dialog and the provider: without a file it
    returns; with one it reads [this.comparisonResult.operationId], which
    throws when the stored answer is [null], and calls the provider.  The
    panel is not touched. *)
Definition generateScriptButton_onDidClick_afterDialog (p : Panel)
    (fileUri : nullable string) : completion :=
  match fileUri with
  | None => Returned p
  | Some _ =>
      match comparisonResult p with
      | None => Threw p
      | Some _ => Returned p
      end
  end.

Definition occur (p : Panel) (o : occurrence) : option Panel :=
  match o with
  | Event e => step p e
  | SaveDialogClosed fileUri =>
      Some (state_of (generateScriptButton_onDidClick_afterDialog p fileUri))
  | GenerateScriptAnswered uri status =>
      Some (state_of (generateScriptButton_onDidClick_resume p (Some uri) status))
  end.

Fixpoint run_occurrences (p : Panel) (later : list occurrence) : option Panel :=
  match later with
  | [] => Some p
  | o :: rest => p' ← occur p o; run_occurrences p' rest
  end.

(** The states of a started panel when the rest of a generate-script click
    may run late. *)
Inductive started : Panel → Prop :=
  | started_start sourceName targetName sourceEndpointInfo targetEndpointInfo :
      started
        (start (created sourceName targetName sourceEndpointInfo targetEndpointInfo))
  | started_occur p o p' :
      started p → occur p o = Some p' → started p'.

(** Occurrences other than a click on a button and an answer to a
    comparison call. *)
Definition no_click_no_answer (o : occurrence) : Prop :=
  match o with
  | Event (RowSelected _) => True
  | Event _ => False
  | SaveDialogClosed _ => True
  | GenerateScriptAnswered _ _ => True
  end.

(** The messages of a failed script generation. *)
Definition generate_failure_message (message : string) : Prop :=
  ∃ text, message = "Generate Script failed '" +:+ text +:+ "'".

(** * Properties *)

(** ** Strings and folds *)

Lemma string_app_cons (a : ascii) (s t : string) :
  String a s +:+ t = String a (s +:+ t).
Proof. reflexivity. Qed.

Lemma string_app_nil_r (s : string) : s +:+ "" = s.
Proof. induction s as [|a s IH]; [done|]. by rewrite string_app_cons, IH. Qed.

Lemma string_app_assoc (s t u : string) : (s +:+ t) +:+ u = s +:+ (t +:+ u).
Proof. induction s as [|a s IH]; [done|]. by rewrite !string_app_cons, IH. Qed.

Lemma concat_strings_cons (s : string) (l : list string) :
  concat_strings (s :: l) = s +:+ concat_strings l.
Proof. reflexivity. Qed.

Lemma concat_strings_app (l k : list string) :
  concat_strings (l ++ k) = concat_strings l +:+ concat_strings k.
Proof.
  induction l as [|s l IH]; [done|].
  rewrite <- app_comm_cons, !concat_strings_cons, IH.
  by rewrite string_app_assoc.
Qed.

(** ** Script aggregation *)

Lemma getAggregatedScript_entry_unfold (d : DiffEntry) (side : bool) :
  getAggregatedScript_entry d side =
  fold_left
    (λ script child, add_child script (getAggregatedScript_entry child side))
    (children d) ("" +:+ to_js_string (pick d side)).
Proof. by destruct d. Qed.

Lemma add_child_contribution (script : string) (child : DiffEntry) (side : bool) :
  add_child script (getAggregatedScript_entry child side)
  = script +:+ contribution child side.
Proof.
  unfold add_child, contribution, getAggregatedScript.
  destruct (decide (getAggregatedScript_entry child side = "null")) as [E|E].
  - rewrite bool_decide_eq_false_2 by (intros H; by apply H).
    rewrite bool_decide_eq_true_2 by done. by rewrite string_app_nil_r.
  - rewrite bool_decide_eq_true_2 by done.
    by rewrite bool_decide_eq_false_2 by done.
Qed.

(** The loop over the children appends their contributions, first child
    first. *)
Lemma fold_children (cs : list DiffEntry) (side : bool) (script : string) :
  fold_left
    (λ script child, add_child script (getAggregatedScript_entry child side))
    cs script
  = script +:+ concat_strings (map (λ child, contribution child side) cs).
Proof.
  revert script. induction cs as [|c cs IH]; intros script.
  - by rewrite string_app_nil_r.
  - cbn [fold_left map]. rewrite IH, add_child_contribution.
    by rewrite concat_strings_cons, string_app_assoc.
Qed.

Lemma getAggregatedScript_entry_eq (d : DiffEntry) (side : bool) :
  getAggregatedScript_entry d side
  = to_js_string (pick d side)
    +:+ concat_strings (map (λ child, contribution child side) (children d)).
Proof. by rewrite getAggregatedScript_entry_unfold, fold_children. Qed.

(** The scenarios of the specification. *)
Example getAggregatedScript_table1 :
  getAggregatedScript (Some table1) true = "CREATE TABLE T1;".
Proof. reflexivity. Qed.

Example getAggregatedScript_parentAB :
  getAggregatedScript (Some (with_children parentAB [leaf None])) true = "A"
  ∧ getAggregatedScript (Some parentAB) true = "AB".
Proof. split; reflexivity. Qed.

(** C1, as stated, fails: for the [null] entry the aggregation does not
    answer the line feed. *)
Lemma getAggregatedScript_null_is_not_newline :
  getAggregatedScript None true ≠ newline
  ∧ getAggregatedScript None false ≠ newline.
Proof. split; discriminate. Qed.

(** C1, amended: for either side, [getAggregatedScript] called with the
    [null] entry returns the empty string, the initial value of [script]. *)
Theorem getAggregatedScript_null (getSourceScript : bool) :
  getAggregatedScript None getSourceScript = "".
Proof. reflexivity. Qed.

(** C2: for a non-null entry the source aggregate is the entry's
    [sourceScript], and the target aggregate its [targetScript] (either
    written as [+=] writes it: the text itself, or the text [null] for a
    [null] field), followed, in the order of [children], by the aggregate
    of every child for the same side, where a child whose aggregate is
    exactly the text [null] adds nothing. *)
Theorem getAggregatedScript_preorder (node : DiffEntry) :
  getAggregatedScript (Some node) true
  = match sourceScript node with
    | Some script => script
    | None => "null"
    end
    +:+ concat_strings
          (map
             (λ child,
                if decide (getAggregatedScript (Some child) true = "null")
                then ""
                else getAggregatedScript (Some child) true)
             (children node))
  ∧ getAggregatedScript (Some node) false
    = match targetScript node with
      | Some script => script
      | None => "null"
      end
      +:+ concat_strings
            (map
               (λ child,
                  if decide (getAggregatedScript (Some child) false = "null")
                  then ""
                  else getAggregatedScript (Some child) false)
               (children node)).
Proof.
  assert (Hchildren : ∀ side,
    map (λ child, contribution child side) (children node)
    = map
        (λ child,
           if decide (getAggregatedScript (Some child) side = "null")
           then ""
           else getAggregatedScript (Some child) side)
        (children node)).
  { intros side. apply map_ext. intros child. unfold contribution.
    by destruct (decide (getAggregatedScript (Some child) side = "null"));
      [rewrite bool_decide_eq_true_2 | rewrite bool_decide_eq_false_2]. }
  cbn [getAggregatedScript] in *.
  rewrite !getAggregatedScript_entry_eq, !Hchildren.
  unfold pick, to_js_string. done.
Qed.

(** C3: an entry whose script for the chosen side is [null] contributes the
    text [null] as its own part; without children its aggregate is exactly
    that text, and a parent holding it among its children aggregates as if
    the child were not there. *)
Theorem null_script_aggregates_to_null_text (node : DiffEntry)
    (getSourceScript : bool) :
  pick node getSourceScript = None →
  getAggregatedScript (Some node) getSourceScript
  = "null"
    +:+ concat_strings
          (map (λ child, contribution child getSourceScript) (children node))
  ∧ (children node = [] →
     getAggregatedScript (Some node) getSourceScript = "null"
     ∧ ∀ (parent : DiffEntry) (before after : list DiffEntry),
         children parent = before ++ node :: after →
         getAggregatedScript (Some parent) getSourceScript
         = getAggregatedScript
             (Some (with_children parent (before ++ after))) getSourceScript).
Proof.
  intros Hpick.
  assert (Hown : getAggregatedScript (Some node) getSourceScript
                 = "null" +:+ concat_strings
                     (map (λ child, contribution child getSourceScript)
                        (children node))).
  { cbn [getAggregatedScript]. by rewrite getAggregatedScript_entry_eq, Hpick. }
  split; [exact Hown|]. intros Hleaf.
  assert (Hnull : getAggregatedScript (Some node) getSourceScript = "null").
  { by rewrite Hown, Hleaf. }
  split; [exact Hnull|]. intros parent before after Hchildren.
  cbn [getAggregatedScript] in *. rewrite !getAggregatedScript_entry_eq.
  destruct parent as [ua dt nm sv tv cs ss ts]. cbn [children with_children] in *.
  subst cs. f_equal. rewrite !map_app, !concat_strings_app. f_equal.
  cbn [map]. rewrite concat_strings_cons.
  unfold contribution at 1. cbn [getAggregatedScript]. rewrite Hnull.
  by rewrite bool_decide_eq_true_2.
Qed.

Lemma null_script_aggregates_to_null_text_witness :
  pick (leaf None) true = None
  ∧ children (leaf None) = []
  ∧ children parentAB = [] ++ leaf None :: [leaf (Some "B")]
  ∧ getAggregatedScript (Some (leaf None)) true = "null"
  ∧ getAggregatedScript (Some parentAB) true
    = getAggregatedScript
        (Some (with_children parentAB ([] ++ [leaf (Some "B")]))) true.
Proof.
  do 3 (split; [reflexivity|]).
  destruct (null_script_aggregates_to_null_text (leaf None) true eq_refl)
    as [_ H].
  destruct (H eq_refl) as [Hnull Hskip].
  split; [exact Hnull|].
  exact (Hskip parentAB [] [leaf (Some "B")] eq_refl).
Defined.

(** C4, as stated, fails: the scenario's entry has no children and no target
    script, and its target aggregate is a text, not the absent field. *)
Lemma childless_aggregate_differs_from_null_field :
  children table1 = []
  ∧ pick table1 false = None
  ∧ Some (getAggregatedScript (Some table1) false) ≠ pick table1 false.
Proof. repeat split; discriminate. Qed.

(** C4, amended: for a non-null entry without children and either side, the
    aggregate is the entry's own script for that side when that field is a
    string, and the text [null] when the field is [null]. *)
Theorem childless_aggregate (node : DiffEntry) (getSourceScript : bool) :
  children node = [] →
  getAggregatedScript (Some node) getSourceScript
  = match pick node getSourceScript with
    | Some script => script
    | None => "null"
    end.
Proof.
  intros Hleaf. cbn [getAggregatedScript].
  rewrite getAggregatedScript_entry_eq, Hleaf. cbn [map].
  change (concat_strings []) with "". by rewrite string_app_nil_r.
Qed.

Lemma childless_aggregate_witness :
  children table1 = []
  ∧ getAggregatedScript (Some table1) true = "CREATE TABLE T1;"
  ∧ getAggregatedScript (Some table1) false = "null".
Proof.
  split; [reflexivity|].
  split; [exact (childless_aggregate table1 true eq_refl)
         | exact (childless_aggregate table1 false eq_refl)].
Defined.

(** ** Row building *)

Lemma SchemaCompareActionMap_lookup (action : SchemaUpdateAction) :
  SchemaCompareActionMap !! action = Some (actionLabel_spec action).
Proof.
  unfold SchemaCompareActionMap, localize.
  destruct action; by simplify_map_eq.
Qed.

Lemma row_of_spec (node : DiffEntry) : row_of node = row_spec node.
Proof. unfold row_of, row_spec. by rewrite SchemaCompareActionMap_lookup. Qed.

Lemma qualifies_iff (node : DiffEntry) :
  qualifies node = true ↔ qualifies_spec node.
Proof.
  unfold qualifies, is_object, has_value, qualifies_spec.
  rewrite andb_true_iff, orb_true_iff, !bool_decide_eq_true. done.
Qed.

(** The loop of [getAllDifferences] from any intermediate [data]. *)
Lemma getAllDifferences_from (differences : list DiffEntry) (data : list Row) :
  fold_left
    (λ data difference,
       if is_object difference then
         if has_value difference then data ++ [row_of difference] else data
       else data)
    differences data
  = data ++ map row_spec (filter qualifies_spec differences).
Proof.
  revert data. induction differences as [|d ds IH]; intros data.
  - by rewrite app_nil_r.
  - cbn [fold_left]. rewrite IH.
    pose proof (qualifies_iff d) as Hq. unfold qualifies in Hq.
    destruct (decide (qualifies_spec d)) as [Hd|Hd].
    + rewrite filter_cons_True by done.
      apply Hq, andb_true_iff in Hd as [-> ->].
      by rewrite row_of_spec, <- app_assoc.
    + rewrite filter_cons_False by done.
      destruct (is_object d), (has_value d); try done.
      exfalso. by apply Hd, Hq.
Qed.

Lemma getAllDifferences_eq (differences : list DiffEntry) :
  getAllDifferences differences
  = map row_spec (filter qualifies_spec differences).
Proof. unfold getAllDifferences. by rewrite getAllDifferences_from. Qed.

(** The scenario of the specification: one row for the Table1 node. *)
Example getAllDifferences_table1 :
  getAllDifferences [table1]
  = [[Some "Table1"; Some "CREATE TABLE T1"; Some "Delete"; None]].
Proof. by vm_compute. Qed.

(** C5: [getAllDifferences] yields, in input order, the row
    [name, sourceValue, label of updateAction, targetValue] of every
    top-level node of type Object with a source or target value, the labels
    being Delete, Change and Add; the other nodes yield nothing and children
    are never looked at, so there are as many rows as qualifying top-level
    nodes and no row for the empty input. *)
Theorem getAllDifferences_rows (differences : list DiffEntry) :
  getAllDifferences differences
  = map row_spec (filter qualifies_spec differences)
  ∧ length (getAllDifferences differences)
    = length (filter qualifies_spec differences)
  ∧ (∀ nested : DiffEntry → list DiffEntry,
       getAllDifferences (map (λ d, with_children d (nested d)) differences)
       = getAllDifferences differences)
  ∧ getAllDifferences [] = [].
Proof.
  pose proof getAllDifferences_eq as Heq.
  split; [apply Heq|].
  split; [by rewrite Heq, length_map|].
  split; [|done].
  intros nested. rewrite !Heq.
  induction differences as [|d ds IH]; [done|].
  cbn [map]. destruct (decide (qualifies_spec d)) as [Hd|Hd].
  - rewrite (filter_cons_True _ d) by done.
    rewrite filter_cons_True by (by destruct d).
    cbn [map]. rewrite IH. by destruct d.
  - rewrite (filter_cons_False _ d) by done.
    rewrite filter_cons_False by (by destruct d).
    apply IH.
Qed.

(** ** The default file name *)

Example defaultFileName_sample :
  defaultFileName loadingPanel sampleDate = "tgt_Update_2019-4-9-8-15.sql".
Proof. vm_compute. reflexivity. Qed.

(** C9: the save dialog is offered, inside the home directory, the file name
    made of the target name, [_Update_], then year, month number counted from
    one, day, hour and minute of the current time, separated by dashes and
    written in decimal, then [.sql]. *)
Theorem defaultFileName_pattern (p : Panel) (now : Date) (homedir : string) :
  defaultUri (generateScriptButton_onDidClick_dialog p now homedir)
  = path_join homedir
      (targetName p +:+ "_Update_"
       +:+ pretty (getFullYear now) +:+ "-"
       +:+ pretty (getMonth now + 1) +:+ "-"
       +:+ pretty (getDate now) +:+ "-"
       +:+ pretty (getHours now) +:+ "-"
       +:+ pretty (getMinutes now) +:+ ".sql").
Proof.
  unfold generateScriptButton_onDidClick_dialog, defaultFileName, datetime.
  cbn [defaultUri js_plus js_to_string]. f_equal.
  by rewrite !string_app_assoc.
Qed.

(** ** The states after [start] *)

Lemma removeItem_absent (item : Component) (items : list Component) :
  item ∉ items → removeItem item items = items.
Proof.
  induction items as [|x rest IH]; [done|]. intros Hnot.
  cbn [removeItem]. destruct (decide (x = item)) as [->|_].
  - exfalso. apply Hnot. by left.
  - f_equal. apply IH. intros Hin. apply Hnot. by right.
Qed.

Lemma start_invariant sn tn si ti : panel_invariant (start (created sn tn si ti)).
Proof. left. cbn. repeat split; lia. Qed.

Lemma execute_resume_invariant (p : Panel) (answer : nullable ComparisonResult) :
  flexModel p = [Toolbar; SourceTargetFlexLayout; Loader] →
  awaiting p = 0 →
  compareButton p = false → switchButton p = false →
  generateScriptButton p = false →
  panel_invariant (state_of (execute_resume p answer)).
Proof.
  destruct p; cbn. intros -> -> -> -> ->.
  destruct answer as [result|]; cbn.
  - right. destruct (success result); cbn;
      destruct (decide (endpointType targetEndpointInfo0 = database)); cbn;
      destruct (decide (0 < length (differences result))); cbn;
      repeat split; auto; try done.
  - left. repeat split; auto.
Qed.

Lemma reExecute_invariant (p : Panel) :
  awaiting p = 0 →
  flexModel p = [Toolbar; SourceTargetFlexLayout; SplitView]
  ∨ flexModel p = [Toolbar; SourceTargetFlexLayout; NoDifferencesLabel] →
  panel_invariant (reExecute p).
Proof.
  destruct p; cbn. intros -> [-> | ->]; left; cbn; repeat split; lia.
Qed.

(** Every state after [start] has one of the two shapes. *)
Lemma reachable_invariant (p : Panel) : reachable p → panel_invariant p.
Proof.
  induction 1 as [sn tn si ti | p e p' _ IH Hstep].
  - apply start_invariant.
  - destruct e as [answer| | |fileUri result|rows]; cbn [step] in Hstep.
    + unfold answered in Hstep. cbn [fmap option_fmap option_map] in Hstep.
      destruct IH as [(Hflex & Hle & Hc & Hs & Hg) | (Hzero & _)];
        [|by rewrite Hzero in Hstep].
      destruct (awaiting p) as [|n] eqn:Hn; [done|].
      assert (n = 0) as -> by lia.
      injection Hstep as <-. apply execute_resume_invariant;
        by destruct p; cbn in *.
    + destruct IH as [(_ & _ & Hc & _) | (Hzero & _ & _ & _ & Hflex)];
        [by rewrite Hc in Hstep|].
      destruct (compareButton p); [|done]. injection Hstep as <-.
      by apply reExecute_invariant.
    + destruct IH as [(_ & _ & _ & Hs & _) | (Hzero & _ & _ & _ & Hflex)];
        [by rewrite Hs in Hstep|].
      destruct (switchButton p); [|done]. injection Hstep as <-.
      apply reExecute_invariant; [done|]. by destruct Hflex; [left|right].
    + destruct (generateScriptButton p) eqn:Hgen; [|done].
      injection Hstep as <-.
      destruct fileUri as [uri|]; [|done].
      destruct result as [status|]; [|done]. cbn.
      destruct (status_success status); [done|]. by destruct p.
    + injection Hstep as <-. unfold onRowSelected.
      destruct p; cbn in *.
      destruct comparisonResult0 as [result|]; [|done].
      destruct (rows !! 0) as [i|]; [|done].
      by destruct (differences result !! i).
Qed.

(** Closed questions about what a given panel shows are settled by
    running their decision procedure. *)
Ltac by_decision :=
  first [ apply (bool_decide_eq_true_1 _); by vm_compute
        | apply (bool_decide_eq_false_1 _); by vm_compute ].

(** ** The result table *)

Lemma execute_resume_table (p : Panel) (result : ComparisonResult) :
  differencesTable (state_of (execute_resume p (Some result)))
  = mkTable (getAllDifferences (differences result)) result_columns
      (selectedRows (differencesTable p)).
Proof.
  destruct p, result as [[] message nodes operation]; cbn;
    by destruct (decide (endpointType targetEndpointInfo0 = database));
      destruct (decide (0 < length nodes)).
Qed.

(** C6, as stated, fails: after the successful answer carrying the
    scenario's node, the one row of the table has the text Table1 under the
    Type column. *)
Lemma type_column_is_not_empty :
  step loadingPanel (CompareAnswered (Some goodAnswer)) = Some populatedPanel
  ∧ data (differencesTable populatedPanel)
    = [[Some "Table1"; Some "CREATE TABLE T1"; Some "Delete"; None]]
  ∧ ¬ Forall
        (λ row,
           empty_cell
             (cell_under (columns (differencesTable populatedPanel)) "Type" row))
        (data (differencesTable populatedPanel)).
Proof.
  split; [reflexivity|]. split; [by vm_compute|].
  intros H. apply Forall_inv in H. vm_compute in H.
  by destruct H as [H|H].
Qed.

(** C6, amended: in every rendered result table the columns are Type, Source
    Name, Action and Target Name, and for every emitted row the cell paired
    with the Type column holds the name of the node the row was built from. *)
Theorem type_column_holds_name (p : Panel) (result : ComparisonResult) :
  let table := differencesTable (state_of (execute_resume p (Some result))) in
  map value (columns table) = ["Type"; "Source Name"; "Action"; "Target Name"]
  ∧ Forall2
      (λ node row, cell_under (columns table) "Type" row = Some (name node))
      (filter qualifies_spec (differences result))
      (data table).
Proof.
  cbn zeta. rewrite execute_resume_table. cbn [columns data].
  split; [reflexivity|].
  rewrite getAllDifferences_eq.
  induction (filter qualifies_spec (differences result)) as [|node nodes IH];
    cbn [map]; constructor; [reflexivity | exact IH].
Qed.

(** ** A failed comparison *)

(** C7: what [execute] does with a failed comparison.  When the provider
    answers nothing, the call throws before any message is shown.  When the
    provider reports failure, the message is shown, and the run goes on as
    after a success: the loader is removed, the buttons are enabled, and
    the differences that came with the answer become rows. *)
Theorem failed_comparison_runs_on :
  (∃ q, answered loadingPanel None = Some (Threw q)
        ∧ shownErrors q = []
        ∧ Loading q)
  ∧ (∃ q, answered loadingPanel (Some failedAnswer) = Some (Returned q)
          ∧ shownErrors q = ["Schema Compare failed 'boom'"]
          ∧ ¬ Loading q
          ∧ displayed q DifferencesTable
          ∧ compareButton q = true
          ∧ data (differencesTable q)
            = [[Some "Table1"; Some "CREATE TABLE T1"; Some "Delete"; None]])
  ∧ (∃ q, answered loadingPanel (Some failedEmptyAnswer) = Some (Returned q)
          ∧ shownErrors q = ["Schema Compare failed 'Unknown'"]
          ∧ ¬ Loading q
          ∧ displayed q NoDifferencesLabel
          ∧ data (differencesTable q) = []).
Proof.
  split; [|split]; eexists; (split; [reflexivity|]).
  - split; [reflexivity | by_decision].
  - split; [by vm_compute|]. split; [by_decision|]. split; [by_decision|].
    split; [reflexivity | by vm_compute].
  - split; [by vm_compute|]. split; [by_decision|].
    split; [by_decision | reflexivity].
Qed.

(** ** Re-execution *)

(** A populated panel after [start] has compare and switch enabled, awaits
    nothing, and shows the split view or the label as its third item. *)
Lemma populated_shape (p : Panel) :
  reachable p → Populated p →
  awaiting p = 0
  ∧ compareButton p = true
  ∧ switchButton p = true
  ∧ (flexModel p = [Toolbar; SourceTargetFlexLayout; SplitView]
     ∨ flexModel p = [Toolbar; SourceTargetFlexLayout; NoDifferencesLabel]).
Proof.
  intros Hreach [Hnot _].
  destruct (reachable_invariant p Hreach)
    as [(Hflex & _) | (Hzero & Hc & Hs & _ & Hflex)]; [|done].
  exfalso. apply Hnot. rewrite Hflex. by_decision.
Qed.

(** What [reExecute] leaves behind when the third item of the flex container
    is the split view or the label. *)
Lemma reExecute_effect (p : Panel) :
  flexModel p = [Toolbar; SourceTargetFlexLayout; SplitView]
  ∨ flexModel p = [Toolbar; SourceTargetFlexLayout; NoDifferencesLabel] →
  flexModel (reExecute p) = [Toolbar; SourceTargetFlexLayout; Loader]
  ∧ diffEditor (reExecute p) = mkDiffEditor newline newline
  ∧ selectedRows (differencesTable (reExecute p)) = None
  ∧ compareButton (reExecute p) = false
  ∧ switchButton (reExecute p) = false
  ∧ generateScriptButton (reExecute p) = false
  ∧ compareCalls (reExecute p)
    = compareCalls p ++ [(sourceEndpointInfo p, targetEndpointInfo p)]
  ∧ sourceEndpointInfo (reExecute p) = sourceEndpointInfo p
  ∧ targetEndpointInfo (reExecute p) = targetEndpointInfo p
  ∧ awaiting (reExecute p) = S (awaiting p).
Proof. destruct p; cbn. by intros [-> | ->]. Qed.

(** C8: from a populated panel, a click on compare or on switch direction
    takes the result surfaces off the screen (table, split view and
    no-differences label), shows the loader, puts a line feed in both diff
    panes, clears the row selection, disables compare, switch and
    generate-script, and calls the comparison once more with the endpoints
    of the panel. *)
Theorem reExecute_from_populated (p : Panel) (e : event) :
  reachable p →
  Populated p →
  e = CompareClicked ∨ e = SwitchClicked →
  ∃ p', step p e = Some p'
    ∧ ¬ displayed p' DifferencesTable
    ∧ ¬ displayed p' SplitView
    ∧ ¬ displayed p' NoDifferencesLabel
    ∧ Loading p'
    ∧ contentLeft (diffEditor p') = newline
    ∧ contentRight (diffEditor p') = newline
    ∧ selectedRows (differencesTable p') = None
    ∧ compareButton p' = false
    ∧ switchButton p' = false
    ∧ generateScriptButton p' = false
    ∧ compareCalls p'
      = compareCalls p ++ [(sourceEndpointInfo p', targetEndpointInfo p')]
    ∧ awaiting p' = 1.
Proof.
  intros Hreach Hpop He.
  destruct (populated_shape p Hreach Hpop) as (Hzero & Hc & Hs & Hflex).
  assert (Hshown : ∀ q,
    flexModel q = [Toolbar; SourceTargetFlexLayout; Loader] →
    ¬ displayed q DifferencesTable ∧ ¬ displayed q SplitView
    ∧ ¬ displayed q NoDifferencesLabel ∧ Loading q).
  { intros q Hq. unfold displayed, Loading. rewrite Hq.
    repeat split; try by_decision; intros [H|[H _]]; revert H; by_decision. }
  destruct He as [-> | ->]; cbn [step].
  - rewrite Hc. eexists. split; [reflexivity|].
    unfold compareButton_onDidClick.
    destruct (reExecute_effect p Hflex)
      as (Hf & Hd & Hsel & Hcb & Hsb & Hgb & Hcalls & Hsrc & Htgt & Haw).
    destruct (Hshown _ Hf) as (? & ? & ? & ?).
    rewrite Hd, Hsel, Hcb, Hsb, Hgb, Hcalls, Hsrc, Htgt, Haw, Hzero. done.
  - rewrite Hs. eexists. split; [reflexivity|].
    unfold switchButton_onDidClick.
    match goal with |- context [reExecute ?q] => set (swapped := q) end.
    assert (Hflex' :
      flexModel swapped = [Toolbar; SourceTargetFlexLayout; SplitView]
      ∨ flexModel swapped
        = [Toolbar; SourceTargetFlexLayout; NoDifferencesLabel]) by exact Hflex.
    destruct (reExecute_effect swapped Hflex')
      as (Hf & Hd & Hsel & Hcb & Hsb & Hgb & Hcalls & Hsrc & Htgt & Haw).
    destruct (Hshown _ Hf) as (? & ? & ? & ?).
    rewrite Hd, Hsel, Hcb, Hsb, Hgb, Hcalls, Hsrc, Htgt, Haw.
    change (awaiting swapped) with (awaiting p). rewrite Hzero. done.
Qed.

Lemma reExecute_from_populated_witness :
  reachable populatedPanel
  ∧ Populated populatedPanel
  ∧ ∃ p', step populatedPanel SwitchClicked = Some p'
      ∧ Loading p'
      ∧ generateScriptButton p' = false
      ∧ awaiting p' = 1.
Proof.
  assert (Hreach : reachable populatedPanel).
  { apply (reachable_step loadingPanel (CompareAnswered (Some goodAnswer)));
      [apply reachable_start | reflexivity]. }
  assert (Hpop : Populated populatedPanel) by by_decision.
  split; [exact Hreach|]. split; [exact Hpop|].
  destruct (reExecute_from_populated populatedPanel SwitchClicked Hreach Hpop
              (or_intror eq_refl))
    as (p' & Hstep & _ & _ & _ & Hload & _ & _ & _ & _ & _ & Hgen & _ & Haw).
  exists p'. done.
Defined.

(** ** The generate-script button *)

(** C10: the generate-script button is disabled when the panel is created
    and after every [reExecute], whatever the endpoints; and when a
    comparison run of a started panel completes, the button is enabled
    exactly if the target endpoint is a database. *)
Theorem generateScriptButton_enabled_iff_database :
  (∀ sn tn si ti, generateScriptButton (created sn tn si ti) = false)
  ∧ (∀ p, generateScriptButton (reExecute p) = false)
  ∧ (∀ p answer p',
       reachable p →
       answered p answer = Some (Returned p') →
       generateScriptButton p' = true
       ↔ endpointType (targetEndpointInfo p') = database).
Proof.
  split; [done|]. split; [by intros []|].
  intros p answer p' Hreach Hanswered. unfold answered in Hanswered.
  destruct (reachable_invariant p Hreach)
    as [(_ & _ & _ & _ & Hgen) | (Hzero & _)];
    [|by rewrite Hzero in Hanswered].
  destruct (awaiting p) as [|n]; [done|].
  destruct answer as [result|]; [|done].
  injection Hanswered as <-.
  destruct p, result as [[] message nodes operation]; cbn in *; subst;
    destruct (decide (endpointType targetEndpointInfo0 = database));
    by destruct (decide (0 < length nodes)).
Qed.

Lemma generateScriptButton_enabled_iff_database_witness :
  reachable loadingPanel
  ∧ answered loadingPanel (Some goodAnswer) = Some (Returned populatedPanel)
  ∧ (generateScriptButton populatedPanel = true
     ↔ endpointType (targetEndpointInfo populatedPanel) = database).
Proof.
  split; [apply reachable_start|]. split; [reflexivity|].
  destruct generateScriptButton_enabled_iff_database as (_ & _ & H).
  apply (H loadingPanel (Some goodAnswer) populatedPanel);
    [apply reachable_start | reflexivity].
Defined.

(** * Further properties of the code *)

(** ** The sentinel comparison of getAggregatedScript *)

(** Induction over a difference tree: a property that holds of an entry
    whenever it holds of all its children holds of every entry. *)
Lemma DiffEntry_tree_ind (P : DiffEntry → Prop) :
  (∀ d, Forall P (children d) → P d) → ∀ d, P d.
Proof.
  intros Hstep. fix IH 1. intros [ua dt nm sv tv cs ss ts].
  apply Hstep. cbn [children].
  induction cs as [|c cs IHcs]; constructor; [apply IH | exact IHcs].
Qed.

Lemma contribution_not_null (child : DiffEntry) (side : bool) :
  getAggregatedScript (Some child) side ≠ "null" →
  contribution child side = getAggregatedScript (Some child) side.
Proof. intros H. unfold contribution. by rewrite bool_decide_eq_false_2. Qed.

(** X1: When no proper descendant aggregates to the text [null], nothing is
    skipped: the aggregate of an entry is the concatenation of all scripts
    of its tree in pre-order. *)
Theorem getAggregatedScript_flattens (node : DiffEntry) (getSourceScript : bool) :
  Forall (λ d, getAggregatedScript (Some d) getSourceScript ≠ "null")
    (descendants node) →
  getAggregatedScript (Some node) getSourceScript
  = concat_strings (all_scripts node getSourceScript).
Proof.
  induction node as [node IH] using DiffEntry_tree_ind. intros Hdesc.
  cbn [getAggregatedScript] in *. rewrite getAggregatedScript_entry_eq.
  destruct node as [ua dt nm sv tv cs ss ts].
  cbn [all_scripts descendants children] in *.
  rewrite concat_strings_cons. f_equal.
  induction cs as [|c cs IHcs]; [done|].
  cbn [flat_map map] in *. rewrite concat_strings_cons, concat_strings_app.
  apply Forall_cons in IH as [IHc IHrest].
  apply Forall_cons in Hdesc as [Hc Hdesc].
  apply Forall_app in Hdesc as [Hdc Hdrest].
  rewrite (contribution_not_null c _ Hc). cbn [getAggregatedScript].
  rewrite (IHc Hdc). f_equal. by apply IHcs.
Qed.

Lemma getAggregatedScript_flattens_witness :
  Forall (λ d, getAggregatedScript (Some d) true ≠ "null")
    (descendants parentXYZ)
  ∧ getAggregatedScript (Some parentXYZ) true
    = concat_strings (all_scripts parentXYZ true).
Proof.
  assert (H : Forall (λ d, getAggregatedScript (Some d) true ≠ "null")
                (descendants parentXYZ)).
  { repeat constructor; discriminate. }
  split; [exact H | exact (getAggregatedScript_flattens parentXYZ true H)].
Defined.

(** X2: The comparison against the text [null] cannot tell an absent script from
    a script that reads [null]: a childless child whose script is the string
    [null] is dropped as well.  And it looks at the whole aggregate of the
    child: a child without a script whose own children contribute some text
    is kept, and its part of the parent's script starts with the text
    [null]. *)
Theorem null_sentinel_is_textual (child : DiffEntry) (getSourceScript : bool) :
  (pick child getSourceScript = Some "null" →
   children child = [] →
   contribution child getSourceScript = "")
  ∧ (pick child getSourceScript = None →
     concat_strings
       (map (λ c, contribution c getSourceScript) (children child)) ≠ "" →
     contribution child getSourceScript
     = "null"
       +:+ concat_strings
             (map (λ c, contribution c getSourceScript) (children child))).
Proof.
  unfold contribution at 1 3. cbn [getAggregatedScript].
  rewrite getAggregatedScript_entry_eq. split.
  - intros -> ->. by rewrite bool_decide_eq_true_2.
  - intros -> Hrest. rewrite bool_decide_eq_false_2; [done|].
    intros Heq. apply Hrest.
    destruct (concat_strings _); [done | discriminate].
Qed.

Lemma null_sentinel_is_textual_witness :
  contribution (leaf (Some "null")) true = ""
  ∧ contribution nullAboveB true = "nullB".
Proof.
  split.
  - exact (proj1 (null_sentinel_is_textual (leaf (Some "null")) true)
             eq_refl eq_refl).
  - refine (proj2 (null_sentinel_is_textual nullAboveB true) eq_refl _).
    discriminate.
Defined.

(** ** Rows and the differences they come from *)

Lemma filter_all_qualify (differences : list DiffEntry) :
  Forall qualifies_spec differences →
  filter qualifies_spec differences = differences.
Proof.
  induction 1 as [|d ds Hd _ IH]; [done|].
  by rewrite filter_cons_True, IH.
Qed.

Lemma lookup_map_row_spec (differences : list DiffEntry) (i : nat) :
  map row_spec differences !! i = row_spec <$> differences !! i.
Proof.
  revert i. induction differences as [|d ds IH]; intros [|i]; try done.
  apply IH.
Qed.

(** X3: Rows of two lists of differences: building the rows of a concatenation
    gives the rows of the first list followed by the rows of the second. *)
Theorem getAllDifferences_app (first second : list DiffEntry) :
  getAllDifferences (first ++ second)
  = getAllDifferences first ++ getAllDifferences second.
Proof. by rewrite !getAllDifferences_eq, filter_app, map_app. Qed.

(** X4: Every row has four cells, one for each column of the table: the first is
    a string, the third is one of the labels Delete, Change and Add, and
    the second and the fourth are not both [null]. *)
Theorem getAllDifferences_row_shape (differences : list DiffEntry) (row : Row) :
  row ∈ getAllDifferences differences →
  length row = length result_columns
  ∧ (∃ text, row !! 0 = Some (Some text))
  ∧ (∃ label, row !! 2 = Some (Some label)
              ∧ label ∈ ["Delete"; "Change"; "Add"])
  ∧ ¬ (row !! 1 = Some None ∧ row !! 3 = Some None).
Proof.
  rewrite getAllDifferences_eq. intros Hrow.
  apply list_elem_of_In, in_map_iff in Hrow as (d & <- & Hd).
  apply list_elem_of_In, list_elem_of_filter in Hd as [[_ Hvalue] _].
  split; [reflexivity|]. split; [by eexists|]. split.
  - exists (actionLabel_spec (updateAction d)). split; [reflexivity|].
    destruct (updateAction d); cbn; repeat constructor.
  - cbn. intros [[= Hs] [= Ht]]. by destruct Hvalue.
Qed.

Lemma getAllDifferences_row_shape_witness :
  [Some "Table1"; Some "CREATE TABLE T1"; Some "Delete"; None]
    ∈ getAllDifferences [table1]
  ∧ length [Some "Table1"; Some "CREATE TABLE T1"; Some "Delete"; @None string]
    = 4.
Proof.
  assert (H : [Some "Table1"; Some "CREATE TABLE T1"; Some "Delete"; None]
                ∈ getAllDifferences [table1]) by (by apply list_elem_of_here).
  split; [exact H|].
  exact (proj1 (getAllDifferences_row_shape [table1] _ H)).
Defined.

(** X5: When every top-level difference is of type Object and has a source or a
    target value, rows and differences go by the same index: row [i] of the
    table is the row of [differences[i]], which is the entry the row
    selection handler reads. *)
Theorem rows_aligned_when_all_qualify (differences : list DiffEntry) (i : nat) :
  Forall qualifies_spec differences →
  getAllDifferences differences !! i = row_spec <$> differences !! i.
Proof.
  intros Hall.
  by rewrite getAllDifferences_eq, filter_all_qualify, lookup_map_row_spec.
Qed.

Lemma rows_aligned_when_all_qualify_witness :
  Forall qualifies_spec [table1; parentAB]
  ∧ getAllDifferences [table1; parentAB] !! 1 = Some (row_spec parentAB).
Proof.
  assert (H : Forall qualifies_spec [table1; parentAB]).
  { repeat constructor; (discriminate || (left; discriminate)). }
  split; [exact H | exact (rows_aligned_when_all_qualify _ 1 H)].
Defined.

(** ** What a run of execute leaves behind *)

(** The fields of the panel after [execute] has received an answer that is
    not [null]. *)
Lemma execute_resume_fields (p : Panel) (result : ComparisonResult) :
  ∃ p', execute_resume p (Some result) = Returned p'
    ∧ comparisonResult p' = Some result
    ∧ direction p' = direction p
    ∧ diffEditor p' = diffEditor p
    ∧ differencesTable p'
      = mkTable (getAllDifferences (differences result)) result_columns
          (selectedRows (differencesTable p))
    ∧ splitView p' = splitView p ++ [DifferencesTable; DiffEditorPanes]
    ∧ flexModel p'
      = removeItem Loader (flexModel p)
        ++ [if decide (0 < length (differences result))
            then SplitView else NoDifferencesLabel]
    ∧ compareButton p' = true
    ∧ switchButton p' = true
    ∧ compareCalls p' = compareCalls p
    ∧ awaiting p' = awaiting p
    ∧ shownErrors p'
      = shownErrors p
        ++ (if success result then []
            else ["Schema Compare failed '"
                  +:+ match errorMessage result with
                      | Some text => if decide (text = "") then "Unknown" else text
                      | None => "Unknown"
                      end
                  +:+ "'"]).
Proof.
  eexists. split; [reflexivity|].
  destruct p, result as [[] message nodes operation]; cbn;
    destruct (decide (endpointType targetEndpointInfo0 = database));
    destruct (decide (0 < length nodes)); cbn;
    rewrite <- ?app_assoc, ?app_nil_r; repeat split; try done;
    destruct message as [text|]; cbn; try done;
    destruct (decide (text = "")) as [->|Hne]; cbn; try done;
    by rewrite (proj2 (String.eqb_neq text "") Hne).
Qed.

(** The split view only ever holds the table and the diff editor. *)
Lemma reachable_splitView (p : Panel) :
  reachable p →
  Forall (λ c, c = DifferencesTable ∨ c = DiffEditorPanes) (splitView p).
Proof.
  induction 1 as [sn tn si ti | p e p' _ IH Hstep]; [by constructor|].
  destruct e as [answer| | |fileUri status|rows]; cbn [step] in Hstep.
  - unfold answered in Hstep. destruct (awaiting p) as [|n]; [done|].
    cbn [fmap option_fmap option_map] in Hstep.
    assert (p' = state_of (execute_resume (set_awaiting n p) answer)) as ->
      by congruence.
    clear Hstep. destruct answer as [result|]; [|by destruct p].
    destruct (execute_resume_fields (set_awaiting n p) result)
      as (q & -> & _ & _ & _ & _ & Hsplit & _).
    cbn [state_of]. rewrite Hsplit. apply Forall_app. split; [by destruct p|].
    apply Forall_cons; split; [by left|].
    apply Forall_cons; split; [by right | constructor].
  - destruct (compareButton p); [|done].
    assert (p' = compareButton_onDidClick p) as -> by congruence.
    by destruct p.
  - destruct (switchButton p); [|done].
    assert (p' = switchButton_onDidClick p) as -> by congruence.
    by destruct p.
  - destruct (generateScriptButton p); [|done].
    assert (p' = state_of
                   (generateScriptButton_onDidClick_resume p fileUri status))
      as -> by congruence.
    destruct fileUri as [uri|]; [|done].
    destruct status as [[[] message]|]; by destruct p.
  - assert (p' = onRowSelected rows p) as -> by congruence.
    unfold onRowSelected. destruct p; cbn in *.
    destruct comparisonResult0 as [result|]; [|done].
    destruct (rows !! 0) as [i|]; [|done].
    by destruct (differences result !! i).
Qed.

(** X6: A run that started from a panel after [start] and received an answer
    whose [differences] is an array (an answer other than [null] whose
    [differences] is not [null] either) returns, takes the loader away, and
    shows the split view with the table exactly when the array holds at
    least one difference, whether or not any of them becomes a row;
    otherwise it shows the no-differences label. *)
Theorem execute_shows_split_view_or_label (p : Panel)
    (result : ComparisonResult) (c : completion) :
  reachable p →
  answered p (Some result) = Some c →
  ∃ p', c = Returned p'
    ∧ ¬ Loading p'
    ∧ (displayed p' SplitView ↔ differences result ≠ [])
    ∧ (displayed p' DifferencesTable ↔ differences result ≠ [])
    ∧ (displayed p' NoDifferencesLabel ↔ differences result = [])
    ∧ data (differencesTable p') = getAllDifferences (differences result).
Proof.
  intros Hreach Hanswered. unfold answered in Hanswered.
  destruct (reachable_invariant p Hreach)
    as [(Hflex & _) | (Hzero & _)]; [|by rewrite Hzero in Hanswered].
  destruct (awaiting p) as [|n]; [done|].
  assert (c = execute_resume (set_awaiting n p) (Some result)) as ->
    by congruence.
  clear Hanswered.
  destruct (execute_resume_fields (set_awaiting n p) result)
    as (p' & -> & _ & _ & _ & Htable & Hsplit & Hflex' & _).
  exists p'. split; [done|].
  assert (Hflexn : flexModel (set_awaiting n p) = flexModel p) by by destruct p.
  assert (Hlabel : NoDifferencesLabel ∉ splitView p').
  { rewrite Hsplit. intros [H|H]%elem_of_app.
    - assert (Hsame : splitView (set_awaiting n p) = splitView p)
        by by destruct p.
      rewrite Hsame in H.
      pose proof (reachable_splitView p Hreach) as Hall.
      rewrite Forall_forall in Hall. by destruct (Hall _ H).
    - revert H. by_decision. }
  rewrite Hflexn, Hflex in Hflex'. cbn in Hflex'.
  unfold Loading, displayed. rewrite Hflex', Htable. cbn [data].
  assert (Hin : DifferencesTable ∈ splitView p').
  { rewrite Hsplit. apply elem_of_app. right. by left. }
  destruct (differences result) as [|d ds]; cbn.
  - split; [by_decision|]. split; [|split; [|split; [|done]]].
    + split; [|done]. intros [H|[H _]]; revert H; by_decision.
    + split; [|done]. intros [H|[H _]]; revert H; by_decision.
    + split; [done|]. intros _. left. by_decision.
  - destruct (decide (0 < S (length ds))); [|lia].
    split; [by_decision|]. split; [|split; [|split; [|done]]].
    + split; [done|]. intros _. left. by_decision.
    + split; [done|]. intros _. right. split; [by_decision | exact Hin].
    + split; [|done]. intros [H|[_ H]]; [revert H; by_decision|].
      by destruct Hlabel.
Qed.

Lemma execute_shows_split_view_or_label_witness :
  reachable loadingPanel
  ∧ ∃ p', answered loadingPanel (Some unlistedAnswer) = Some (Returned p')
      ∧ displayed p' DifferencesTable
      ∧ data (differencesTable p') = [].
Proof.
  split; [apply reachable_start|].
  destruct (execute_shows_split_view_or_label loadingPanel unlistedAnswer _
              (reachable_start _ _ _ _) eq_refl)
    as (p' & Hc & _ & _ & Htable & _ & Hdata).
  exists p'. split; [exact (f_equal Some Hc)|].
  split; [by apply Htable | exact Hdata].
Defined.

(** X7: A run whose answer is not [null] shows no message when the provider
    reports success, and exactly one when it reports failure: the text
    Schema Compare failed with, between quotes, the provider's error text,
    or Unknown when that text is [null] or empty. *)
Theorem execute_failure_message (p : Panel) (result : ComparisonResult) :
  shownErrors (state_of (execute_resume p (Some result)))
  = shownErrors p
    ++ (if success result then []
        else ["Schema Compare failed '"
              +:+ match errorMessage result with
                  | Some text => if decide (text = "") then "Unknown" else text
                  | None => "Unknown"
                  end
              +:+ "'"]).
Proof.
  destruct (execute_resume_fields p result)
    as (p' & -> & _ & _ & _ & _ & _ & _ & _ & _ & _ & _ & Herrors).
  exact Herrors.
Qed.

(** ** Selecting a row *)

(** X8: Selecting rows whose first index [i] names a difference of the last
    answer fills each pane from that difference: with a line feed when its
    own script for that side is [null], whatever its children hold, and
    otherwise with its own script followed by what its children
    contribute. *)
Theorem onRowSelected_panes (p : Panel) (result : ComparisonResult)
    (i : nat) (others : list nat) (d : DiffEntry) :
  comparisonResult p = Some result →
  differences result !! i = Some d →
  selectedRows (differencesTable (onRowSelected (i :: others) p))
  = Some (i :: others)
  ∧ contentLeft (diffEditor (onRowSelected (i :: others) p))
    = match sourceScript d with
      | None => newline
      | Some script =>
          script
          +:+ concat_strings (map (λ c, contribution c true) (children d))
      end
  ∧ contentRight (diffEditor (onRowSelected (i :: others) p))
    = match targetScript d with
      | None => newline
      | Some script =>
          script
          +:+ concat_strings (map (λ c, contribution c false) (children d))
      end.
Proof.
  intros Hresult Hd. unfold onRowSelected.
  destruct p; cbn in *. subst. cbn. rewrite Hd. cbn.
  rewrite !getAggregatedScript_entry_eq. unfold pick.
  split; [done|].
  by destruct (sourceScript d), (targetScript d).
Qed.

Lemma onRowSelected_panes_witness :
  comparisonResult populatedPanel = Some goodAnswer
  ∧ differences goodAnswer !! 0 = Some table1
  ∧ contentLeft (diffEditor (onRowSelected [0] populatedPanel))
    = "CREATE TABLE T1;"
  ∧ contentRight (diffEditor (onRowSelected [0] populatedPanel)) = newline.
Proof.
  do 2 (split; [reflexivity|]).
  destruct (onRowSelected_panes populatedPanel goodAnswer 0 [] table1
              eq_refl eq_refl) as (_ & Hleft & Hright).
  split; [exact Hleft | exact Hright].
Defined.

(** X9: A selection that names no difference (no row at all, or a first index
    beyond the differences of the last answer) is recorded by the table and
    changes nothing else: both panes keep their text. *)
Theorem onRowSelected_without_difference (p : Panel) (rows : list nat) :
  (∀ result i,
     comparisonResult p = Some result →
     rows !! 0 = Some i →
     (length (differences result) ≤ i)%nat) →
  onRowSelected rows p
  = set_differencesTable
      (mkTable (data (differencesTable p)) (columns (differencesTable p))
         (Some rows)) p.
Proof.
  intros Hout. unfold onRowSelected. destruct p; cbn in *.
  destruct comparisonResult0 as [result|]; [|done].
  destruct (rows !! 0) as [i|]; [|done].
  by rewrite (lookup_ge_None_2 (differences result) i)
    by (by apply Hout).
Qed.

Lemma onRowSelected_without_difference_witness :
  diffEditor (onRowSelected [7] populatedPanel) = diffEditor populatedPanel
  ∧ diffEditor (onRowSelected [] populatedPanel) = diffEditor populatedPanel.
Proof.
  split.
  - rewrite (onRowSelected_without_difference populatedPanel [7]);
      [reflexivity|].
    intros result i [= <-] [= <-]. cbn. lia.
  - rewrite (onRowSelected_without_difference populatedPanel []);
      [reflexivity|].
    intros result i _ [=].
Defined.

(** X10: The handler indexes the answer's differences, the table its rows.  When
    the first difference yields no row and the second does, the first row
    of the table is the second difference's, and selecting it fills the
    panes from the first difference. *)
Theorem selection_reads_unfiltered_differences (p : Panel)
    (result : ComparisonResult) (d0 d1 : DiffEntry) (rest : list DiffEntry) :
  differences result = d0 :: d1 :: rest →
  ¬ qualifies_spec d0 →
  qualifies_spec d1 →
  let p' := state_of (execute_resume p (Some result)) in
  data (differencesTable p') !! 0 = Some (row_spec d1)
  ∧ contentLeft (diffEditor (onRowSelected [0] p'))
    = (if decide (sourceScript d0 = None) then newline
       else getAggregatedScript (Some d0) true)
  ∧ contentRight (diffEditor (onRowSelected [0] p'))
    = (if decide (targetScript d0 = None) then newline
       else getAggregatedScript (Some d0) false).
Proof.
  intros Hds Hd0 Hd1. cbn zeta.
  destruct (execute_resume_fields p result)
    as (p' & -> & Hresult & _ & _ & Htable & _).
  cbn [state_of]. rewrite Htable. cbn [data].
  rewrite getAllDifferences_eq, Hds.
  rewrite filter_cons_False, filter_cons_True by done.
  split; [done|].
  unfold onRowSelected. destruct p'; cbn in *. subst. cbn.
  by rewrite Hds.
Qed.

Lemma selection_reads_unfiltered_differences_witness :
  let result := mkComparisonResult true None [leaf (Some "S"); table1] "op" in
  let p' := state_of (execute_resume loadingPanel (Some result)) in
  data (differencesTable p') !! 0 = Some (row_spec table1)
  ∧ contentLeft (diffEditor (onRowSelected [0] p')) = "S".
Proof.
  cbn zeta.
  destruct (selection_reads_unfiltered_differences loadingPanel
              (mkComparisonResult true None [leaf (Some "S"); table1] "op")
              (leaf (Some "S")) table1 [] eq_refl)
    as (Hrow & Hleft & _).
  - by intros [[=] _].
  - split; [reflexivity | by left].
  - split; [exact Hrow | exact Hleft].
Defined.

(** ** Switching direction *)

Lemma execute_resume_direction (p : Panel) (answer : nullable ComparisonResult) :
  direction (state_of (execute_resume p answer)) = direction p.
Proof.
  destruct answer as [result|]; [|by destruct p].
  by destruct (execute_resume_fields p result) as (p' & -> & _ & Hdir & _).
Qed.

(** X11: A click on switch direction exchanges source and target (names,
    endpoints and dropdown values) and calls the comparison with the
    exchanged endpoints; a second click, after any answer to that call,
    brings back the direction the panel had at first. *)
Theorem switch_twice_restores_direction (p : Panel)
    (answer : nullable ComparisonResult) :
  direction (switchButton_onDidClick p)
  = (targetName p, sourceName p, targetEndpointInfo p, sourceEndpointInfo p,
     targetDropdown p, sourceDropdown p)
  ∧ compareCalls (switchButton_onDidClick p)
    = compareCalls p ++ [(targetEndpointInfo p, sourceEndpointInfo p)]
  ∧ direction
      (switchButton_onDidClick
         (state_of (execute_resume (switchButton_onDidClick p) answer)))
    = direction p.
Proof.
  assert (Hswap : ∀ q, direction (switchButton_onDidClick q)
    = (targetName q, sourceName q, targetEndpointInfo q, sourceEndpointInfo q,
       targetDropdown q, sourceDropdown q)) by (by intros []).
  split; [apply Hswap|]. split; [by destruct p|].
  set (q := state_of (execute_resume (switchButton_onDidClick p) answer)).
  pose proof (execute_resume_direction (switchButton_onDidClick p) answer)
    as Hq. fold q in Hq. rewrite Hswap in Hq.
  rewrite Hswap. unfold direction in Hq |- *. clearbody q. congruence.
Qed.

(** ** What selecting a row and generating a script leave alone *)

(** X12: Neither a row selection nor a click on generate-script, however the
    dialog and the provider answer, calls the comparison, changes what is
    laid out, enables or disables a button, or touches the direction and
    the stored answer; the generate-script click leaves table and panes
    alone too, and adds at most one message. *)
Theorem selection_and_generation_frame (p p' : Panel) (e : event) :
  (∃ rows, e = RowSelected rows)
  ∨ (∃ fileUri status, e = GenerateScriptClicked fileUri status) →
  step p e = Some p' →
  compareCalls p' = compareCalls p
  ∧ awaiting p' = awaiting p
  ∧ flexModel p' = flexModel p
  ∧ splitView p' = splitView p
  ∧ (compareButton p', switchButton p', generateScriptButton p')
    = (compareButton p, switchButton p, generateScriptButton p)
  ∧ direction p' = direction p
  ∧ comparisonResult p' = comparisonResult p
  ∧ data (differencesTable p') = data (differencesTable p)
  ∧ ((∃ rows, e = RowSelected rows) → shownErrors p' = shownErrors p)
  ∧ (∀ fileUri status, e = GenerateScriptClicked fileUri status →
       differencesTable p' = differencesTable p
       ∧ diffEditor p' = diffEditor p
       ∧ (shownErrors p' = shownErrors p
          ∨ ∃ message, shownErrors p' = shownErrors p ++ [message])
       ∧ (fileUri = None → p' = p)).
Proof.
  intros [[rows ->] | (fileUri & status & ->)] Hstep; cbn [step] in Hstep.
  - assert (p' = onRowSelected rows p) as -> by congruence. clear Hstep.
    unfold onRowSelected. destruct p; cbn.
    destruct comparisonResult0 as [result|];
      [destruct (rows !! 0) as [i|];
         [destruct (differences result !! i)|]|];
      cbn; split_and!; try done; by intros ? ? [=].
  - assert (Hgen : generateScriptButton p = true)
      by (by destruct (generateScriptButton p)).
    rewrite Hgen in Hstep.
    assert (p' = state_of
                   (generateScriptButton_onDidClick_resume p fileUri status))
      as -> by congruence.
    clear Hstep Hgen.
    destruct fileUri as [uri|], status as [[[] message]|], p; cbn in *;
      split_and!; try done;
      try (by intros [? [=]]);
      intros ? ? [= <- <-]; split_and!; try done; eauto.
Qed.

Lemma selection_and_generation_frame_witness :
  step populatedPanel (GenerateScriptClicked None None) = Some populatedPanel
  ∧ ∀ p', step populatedPanel (RowSelected [0]) = Some p' →
          flexModel p' = flexModel populatedPanel.
Proof.
  split; [reflexivity|]. intros p' Hstep.
  exact (proj1 (proj2 (proj2
    (selection_and_generation_frame populatedPanel p' (RowSelected [0])
       (or_introl (ex_intro _ [0] eq_refl)) Hstep)))).
Defined.

(** ** One comparison at a time *)

(** X13: After [start] at most one comparison call is unanswered at any time, and
    while one is, no button can be clicked: compare, switch and
    generate-script are all disabled.  The loader is on screen exactly when
    compare and switch are disabled, and the flex container always holds
    the toolbar, the source and target line and one of loader, split view
    and no-differences label. *)
Theorem one_comparison_at_a_time (p : Panel) :
  reachable p →
  (awaiting p ≤ 1)%nat
  ∧ (awaiting p = 1 →
     step p CompareClicked = None
     ∧ step p SwitchClicked = None
     ∧ ∀ fileUri status, step p (GenerateScriptClicked fileUri status) = None)
  ∧ (Loading p ↔ compareButton p = false)
  ∧ (Loading p ↔ switchButton p = false)
  ∧ (Loading p → generateScriptButton p = false)
  ∧ ∃ shown, flexModel p = [Toolbar; SourceTargetFlexLayout; shown]
             ∧ shown ∈ [Loader; SplitView; NoDifferencesLabel].
Proof.
  intros Hreach.
  destruct (reachable_invariant p Hreach)
    as [(Hflex & Hle & Hc & Hs & Hg) | (Hzero & Hc & Hs & Hg & Hflex)].
  - split; [exact Hle|]. split.
    { intros _. cbn [step]. by rewrite Hc, Hs, Hg. }
    unfold Loading. rewrite Hflex, Hc, Hs.
    assert (Hin : Loader ∈ [Toolbar; SourceTargetFlexLayout; Loader])
      by by_decision.
    repeat split; try done.
    exists Loader. split; [done | by_decision].
  - split; [lia|]. split; [intros; lia|].
    unfold Loading. rewrite Hc, Hs.
    destruct Hflex as [-> | ->].
    + assert (Hnot : Loader ∉ [Toolbar; SourceTargetFlexLayout; SplitView])
        by by_decision.
      repeat split; try done.
      exists SplitView. split; [done | by_decision].
    + assert (Hnot : Loader
                       ∉ [Toolbar; SourceTargetFlexLayout; NoDifferencesLabel])
        by by_decision.
      repeat split; try done.
      exists NoDifferencesLabel. split; [done | by_decision].
Qed.

Lemma one_comparison_at_a_time_witness :
  reachable loadingPanel
  ∧ awaiting loadingPanel = 1
  ∧ step loadingPanel CompareClicked = None
  ∧ step loadingPanel SwitchClicked = None.
Proof.
  split; [apply reachable_start|]. split; [reflexivity|].
  destruct (one_comparison_at_a_time loadingPanel (reachable_start _ _ _ _))
    as (_ & H & _).
  destruct (H eq_refl) as (Hc & Hs & _).
  split; [exact Hc | exact Hs].
Defined.

(** ** After an answer of null *)

Lemma step_invariant (p p' : Panel) (e : event) :
  panel_invariant p → step p e = Some p' → panel_invariant p'.
Proof.
  intros Hinv Hstep.
  destruct e as [answer| | |fileUri status|rows]; cbn [step] in Hstep.
  - unfold answered in Hstep. cbn [fmap option_fmap option_map] in Hstep.
    destruct Hinv as [(Hflex & Hle & Hc & Hs & Hg) | (Hzero & _)];
      [|by rewrite Hzero in Hstep].
    destruct (awaiting p) as [|n] eqn:Hn; [done|].
    assert (n = 0) as -> by lia.
    cbn [fmap option_fmap option_map] in Hstep.
    assert (p' = state_of (execute_resume (set_awaiting 0 p) answer)) as ->
      by congruence.
    apply execute_resume_invariant; by destruct p; cbn in *.
  - destruct Hinv as [(_ & _ & Hc & _) | (Hzero & _ & _ & _ & Hflex)];
      [by rewrite Hc in Hstep|].
    destruct (compareButton p); [|done].
    assert (p' = compareButton_onDidClick p) as -> by congruence.
    by apply reExecute_invariant.
  - destruct Hinv as [(_ & _ & _ & Hs & _) | (Hzero & _ & _ & _ & Hflex)];
      [by rewrite Hs in Hstep|].
    destruct (switchButton p); [|done].
    assert (p' = switchButton_onDidClick p) as -> by congruence.
    apply reExecute_invariant; [done|]. by destruct Hflex; [left|right].
  - destruct (generateScriptButton p); [|done].
    assert (p' = state_of
                   (generateScriptButton_onDidClick_resume p fileUri status))
      as -> by congruence.
    by destruct fileUri as [uri|], status as [[[] message]|], p.
  - assert (p' = onRowSelected rows p) as -> by congruence.
    unfold onRowSelected. destruct p; cbn in *.
    destruct comparisonResult0 as [result|]; [|done].
    destruct (rows !! 0) as [i|]; [|done].
    by destruct (differences result !! i).
Qed.

(** The two shapes also cover the states in which the rest of a
    generate-script click runs late. *)
Lemma started_invariant (p : Panel) : started p → panel_invariant p.
Proof.
  induction 1 as [sn tn si ti | p o p' _ IH Hoccur].
  - apply start_invariant.
  - destruct o as [e|fileUri|uri status]; cbn [occur] in Hoccur.
    + by apply (step_invariant p p' e).
    + injection Hoccur as <-.
      unfold generateScriptButton_onDidClick_afterDialog.
      by destruct fileUri, (comparisonResult p).
    + injection Hoccur as <-.
      by destruct status as [[[] message]|], p.
Qed.

Lemma stuck_occur (q q' : Panel) (o : occurrence) :
  stuck q → occur q o = Some q' →
  no_click_no_answer o
  ∧ stuck q'
  ∧ compareCalls q' = compareCalls q
  ∧ ∃ messages, shownErrors q' = shownErrors q ++ messages
                ∧ Forall generate_failure_message messages.
Proof.
  intros (Hflex & Hzero & Hc & Hs & Hg) Hoccur.
  assert (Hsame : ∃ messages : list string,
            shownErrors q = shownErrors q ++ messages
            ∧ Forall generate_failure_message messages).
  { exists []. by rewrite app_nil_r. }
  destruct o as [[answer| | |fileUri status|rows]|fileUri|uri status];
    cbn [occur step] in Hoccur.
  - unfold answered in Hoccur. by rewrite Hzero in Hoccur.
  - by rewrite Hc in Hoccur.
  - by rewrite Hs in Hoccur.
  - by rewrite Hg in Hoccur.
  - split; [done|].
    assert (q' = onRowSelected rows q) as -> by congruence. clear Hoccur.
    unfold stuck, onRowSelected. destruct q; cbn in *.
    destruct comparisonResult0 as [result|];
      [destruct (rows !! 0) as [i|];
         [destruct (differences result !! i)|]|];
      cbn; by split_and!.
  - split; [done|]. injection Hoccur as <-.
    unfold generateScriptButton_onDidClick_afterDialog.
    destruct fileUri, (comparisonResult q); cbn; by split_and!.
  - split; [done|]. injection Hoccur as <-.
    destruct status as [[[] message]|]; cbn; try by split_and!.
    unfold stuck. destruct q; cbn in *. split_and!; try done.
    eexists [_]. split; [reflexivity|].
    constructor; [|constructor]. eexists. reflexivity.
Qed.

(** X14: When the provider answers [null] to a started panel, the run throws
    without showing a message and the panel is left loading for good.
    Whatever happens afterwards, the late rest of earlier generate-script
    clicks included, the loader stays on screen, every button stays
    disabled, the comparison is not called again, no click and no
    comparison answer can happen, and the only messages that can still
    appear are the failure messages of script generation. *)
Theorem null_answer_leaves_panel_loading (p : Panel) (c : completion)
    (later : list occurrence) (q : Panel) :
  started p →
  answered p None = Some c →
  run_occurrences (state_of c) later = Some q →
  (∃ thrown, c = Threw thrown ∧ shownErrors thrown = shownErrors p)
  ∧ Forall no_click_no_answer later
  ∧ stuck q
  ∧ Loading q
  ∧ compareCalls q = compareCalls p
  ∧ ∃ messages, shownErrors q = shownErrors p ++ messages
                ∧ Forall generate_failure_message messages.
Proof.
  intros Hstarted Hanswered Hrun. unfold answered in Hanswered.
  destruct (started_invariant p Hstarted)
    as [(Hflex & Hle & Hc & Hs & Hg) | (Hzero & _)];
    [|by rewrite Hzero in Hanswered].
  destruct (awaiting p) as [|n] eqn:Hn; [done|].
  assert (c = Threw (set_comparisonResult None (set_awaiting n p))) as ->
    by (unfold execute_resume in Hanswered; congruence).
  clear Hanswered. cbn [state_of] in Hrun.
  assert (n = 0) as -> by lia.
  set (q0 := set_comparisonResult None (set_awaiting 0 p)) in *.
  assert (Hstuck : stuck q0) by (by destruct p).
  assert (Herrors : shownErrors q0 = shownErrors p) by (by destruct p).
  assert (Hcalls : compareCalls q0 = compareCalls p) by (by destruct p).
  split; [by eexists|]. rewrite <- Herrors, <- Hcalls.
  clear Herrors Hcalls. clearbody q0. clear - Hrun Hstuck.
  revert q0 Hstuck Hrun.
  induction later as [|o later IH]; intros q0 Hstuck Hrun.
  - injection Hrun as <-. split; [constructor|]. split; [done|].
    split; [|split; [done|]].
    + destruct Hstuck as (Hflex & _). unfold Loading. rewrite Hflex.
      by_decision.
    + exists []. by rewrite app_nil_r.
  - cbn [run_occurrences] in Hrun.
    destruct (occur q0 o) as [q1|] eqn:Hoccur; [|done]. cbn in Hrun.
    destruct (stuck_occur q0 q1 o Hstuck Hoccur)
      as (Ho & Hstuck1 & Hcalls1 & messages1 & Herr1 & Hall1).
    destruct (IH q1 Hstuck1 Hrun)
      as (Hall & Hq & Hload & Hcalls & messages & Herr & Hmsgs).
    split; [by constructor|]. split; [done|]. split; [done|].
    split; [congruence|].
    exists (messages1 ++ messages). split.
    + by rewrite Herr, Herr1, <- app_assoc.
    + by apply Forall_app.
Qed.

Lemma null_answer_leaves_panel_loading_witness :
  started loadingPanel
  ∧ ∃ q, run_occurrences
           (set_comparisonResult None (set_awaiting 0 loadingPanel))
           [GenerateScriptAnswered "out.sql" (Some (mkResultStatus false None));
            Event (RowSelected [0])] = Some q
      ∧ Loading q
      ∧ compareCalls q = compareCalls loadingPanel.
Proof.
  split; [apply started_start|]. eexists. split; [reflexivity|].
  destruct (null_answer_leaves_panel_loading loadingPanel _
              [GenerateScriptAnswered "out.sql"
                 (Some (mkResultStatus false None));
               Event (RowSelected [0])] _
              (started_start _ _ _ _) eq_refl eq_refl)
    as (_ & _ & _ & Hload & Hcalls & _).
  split; [exact Hload | exact Hcalls].
Defined.

(** ** The comparison calls of a session *)

Lemma step_calls (p p' : Panel) (e : event) :
  step p e = Some p' →
  length (compareCalls p')
  = length (compareCalls p) + (if is_click e then 1 else 0)
  ∧ awaiting p' + (if is_answer e then 1 else 0)
    = awaiting p + (if is_click e then 1 else 0).
Proof.
  intros Hstep.
  destruct e as [answer| | |fileUri status|rows]; cbn [step] in Hstep; cbn.
  - unfold answered in Hstep. destruct (awaiting p) as [|n] eqn:Hn; [done|].
    cbn [fmap option_fmap option_map] in Hstep.
    assert (p' = state_of (execute_resume (set_awaiting n p) answer)) as ->
      by congruence.
    clear Hstep. destruct answer as [result|].
    + destruct (execute_resume_fields (set_awaiting n p) result)
        as (q & -> & _ & _ & _ & _ & _ & _ & _ & _ & Hcalls & Haw & _).
      cbn [state_of]. rewrite Hcalls, Haw. destruct p; cbn in *. lia.
    + destruct p; cbn in *. lia.
  - destruct (compareButton p); [|done].
    assert (p' = compareButton_onDidClick p) as -> by congruence.
    destruct p; cbn. rewrite length_app. cbn. lia.
  - destruct (switchButton p); [|done].
    assert (p' = switchButton_onDidClick p) as -> by congruence.
    destruct p; cbn. rewrite length_app. cbn. lia.
  - destruct (generateScriptButton p); [|done].
    assert (p' = state_of
                   (generateScriptButton_onDidClick_resume p fileUri status))
      as -> by congruence.
    destruct fileUri as [uri|], status as [[[] message]|], p; cbn; lia.
  - assert (p' = onRowSelected rows p) as -> by congruence.
    unfold onRowSelected. destruct p; cbn.
    destruct comparisonResult0 as [result|];
      [destruct (rows !! 0) as [i|];
         [destruct (differences result !! i)|]|]; cbn; lia.
Qed.

(** X15: Over any sequence of events, every click on compare or switch calls the
    comparison exactly once and nothing else calls it; and the calls still
    unanswered are the calls made minus the answers received. *)
Theorem calls_match_clicks (p q : Panel) (events : list event) :
  run p events = Some q →
  length (compareCalls q) = length (compareCalls p) + clicks events
  ∧ awaiting q + answers events = awaiting p + clicks events.
Proof.
  revert p. induction events as [|e events IH]; intros p Hrun.
  - injection Hrun as <-. unfold clicks, answers. cbn. lia.
  - cbn [run] in Hrun. destruct (step p e) as [p'|] eqn:Hstep; [|done].
    cbn in Hrun. destruct (IH p' Hrun) as [Hcalls Haw].
    destruct (step_calls p p' e Hstep) as [Hc1 Ha1].
    unfold clicks, answers in *. cbn [List.filter].
    destruct (is_click e), (is_answer e); cbn [length]; lia.
Qed.

Lemma calls_match_clicks_witness :
  run loadingPanel
    [CompareAnswered (Some goodAnswer); SwitchClicked; RowSelected [0];
     CompareAnswered None]
  ≠ None
  ∧ ∀ q, run loadingPanel
           [CompareAnswered (Some goodAnswer); SwitchClicked; RowSelected [0];
            CompareAnswered None] = Some q →
         length (compareCalls q) = 2 ∧ awaiting q = 0.
Proof.
  split; [discriminate|]. intros q Hrun.
  destruct (calls_match_clicks loadingPanel q _ Hrun) as [Hcalls Haw].
  split; [exact Hcalls|]. cbn in Haw. lia.
Defined.

(** X16: After [start] the panel is consistent about its direction: each
    dropdown holds the one name of its side, and the most recent comparison
    call was made with the endpoints the panel has as source and target. *)
Theorem last_call_matches_direction (p : Panel) :
  reachable p →
  sourceDropdown p = [sourceName p]
  ∧ targetDropdown p = [targetName p]
  ∧ last (compareCalls p) = Some (sourceEndpointInfo p, targetEndpointInfo p).
Proof.
  induction 1 as [sn tn si ti | p e p' _ IH Hstep]; [done|].
  destruct IH as (Hs & Ht & Hlast).
  destruct e as [answer| | |fileUri status|rows]; cbn [step] in Hstep.
  - unfold answered in Hstep. destruct (awaiting p) as [|n]; [done|].
    cbn [fmap option_fmap option_map] in Hstep.
    assert (p' = state_of (execute_resume (set_awaiting n p) answer)) as ->
      by congruence.
    clear Hstep. destruct answer as [result|]; [|by destruct p].
    destruct (execute_resume_fields (set_awaiting n p) result)
      as (q & -> & _ & Hdir & _ & _ & _ & _ & _ & _ & Hcalls & _).
    cbn [state_of]. rewrite Hcalls. unfold direction in Hdir.
    destruct p; cbn in *. by simplify_eq.
  - destruct (compareButton p); [|done].
    assert (p' = compareButton_onDidClick p) as -> by congruence.
    destruct p; cbn in *. by rewrite last_snoc.
  - destruct (switchButton p); [|done].
    assert (p' = switchButton_onDidClick p) as -> by congruence.
    destruct p; cbn in *. by rewrite last_snoc.
  - destruct (generateScriptButton p); [|done].
    assert (p' = state_of
                   (generateScriptButton_onDidClick_resume p fileUri status))
      as -> by congruence.
    by destruct fileUri as [uri|], status as [[[] message]|], p.
  - assert (p' = onRowSelected rows p) as -> by congruence.
    unfold onRowSelected. destruct p; cbn in *.
    by destruct comparisonResult0 as [result|];
      [destruct (rows !! 0) as [i|];
         [destruct (differences result !! i)|]|].
Qed.

Lemma last_call_matches_direction_witness :
  reachable (switchButton_onDidClick populatedPanel)
  ∧ last (compareCalls (switchButton_onDidClick populatedPanel))
    = Some (dbEndpoint, fileEndpoint).
Proof.
  assert (Hreach : reachable (switchButton_onDidClick populatedPanel)).
  { apply (reachable_step populatedPanel SwitchClicked); [|reflexivity].
    apply (reachable_step loadingPanel (CompareAnswered (Some goodAnswer)));
      [apply reachable_start | reflexivity]. }
  split; [exact Hreach|].
  exact (proj2 (proj2 (last_call_matches_direction _ Hreach))).
Defined.

(** ** The answer to generate-script *)

(** X17: Once a file has been chosen, a reported failure of script generation
    shows exactly one message, Generate Script failed with the provider's
    error text or Unknown between quotes, a success shows none, and an
    answer of [null] throws without any message; in no case does the panel
    change otherwise. *)
Theorem generateScript_outcome (p : Panel) (uri : string)
    (answer : nullable ResultStatus) :
  generateScriptButton_onDidClick_resume p (Some uri) answer
  = match answer with
    | None => Threw p
    | Some status =>
        Returned
          (set_shownErrors
             (shownErrors p
              ++ (if status_success status then []
                  else ["Generate Script failed '"
                        +:+ match status_errorMessage status with
                            | Some text =>
                                if decide (text = "") then "Unknown" else text
                            | None => "Unknown"
                            end
                        +:+ "'"])) p)
    end.
Proof.
  destruct answer as [[[] message]|]; cbn; [| |done].
  - by rewrite app_nil_r; destruct p.
  - unfold showErrorMessage. do 3 f_equal.
    destruct message as [text|]; cbn; [|done].
    destruct (decide (text = "")) as [->|Hne]; [done|].
    by rewrite (proj2 (String.eqb_neq text "") Hne).
Qed.

(** ** Default file names and the minute of the click *)

Lemma pretty_N_go_has_char (c : ascii) (x : N) (s : string) :
  (∀ k, pretty_N_char k ≠ c) →
  has_char c (pretty_N_go x s) = has_char c s.
Proof.
  intros Hc. revert s. induction (N.lt_wf_0 x) as [x _ IH]; intros s.
  assert (x = 0 ∨ 0 < x)%N as [->|Hpos] by lia.
  - by rewrite pretty_N_go_0.
  - rewrite pretty_N_go_step by done.
    rewrite IH by (by apply N.div_lt). cbn [has_char].
    by rewrite (proj2 (Ascii.eqb_neq _ _) (Hc _)).
Qed.

(** The decimal text of a number holds neither a dash nor a dot. *)
Lemma pretty_nat_has_char (c : ascii) (n : nat) :
  c = "-"%char ∨ c = "."%char → has_char c (pretty n) = false.
Proof.
  intros Hc.
  assert (Hdigit : ∀ k, pretty_N_char k ≠ c).
  { intros k. unfold pretty_N_char.
    destruct Hc as [-> | ->]; by repeat case_match. }
  unfold pretty, pretty_nat, pretty, pretty_N.
  case_decide; [by destruct Hc as [-> | ->]|].
  by rewrite pretty_N_go_has_char.
Qed.

(** Two texts that agree and each consist of a part free of a character,
    then that character, then a rest, agree part by part. *)
Lemma split_at_char (c : ascii) (a b rest rest' : string) :
  has_char c a = false → has_char c b = false →
  a +:+ String c rest = b +:+ String c rest' →
  a = b ∧ rest = rest'.
Proof.
  revert b. induction a as [|x a IH]; intros [|y b] Ha Hb Heq;
    cbn [has_char] in Ha, Hb; rewrite ?string_app_cons in Heq.
  - by injection Heq.
  - injection Heq as <- _. by rewrite Ascii.eqb_refl in Hb.
  - injection Heq as -> _. by rewrite Ascii.eqb_refl in Ha.
  - injection Heq as -> Heq.
    apply orb_false_iff in Ha as [_ Ha]. apply orb_false_iff in Hb as [_ Hb].
    destruct (IH b Ha Hb Heq) as [-> ->]. done.
Qed.

Lemma defaultFileName_eq (p : Panel) (now : Date) :
  defaultFileName p now
  = targetName p +:+ "_Update_"
    +:+ pretty (getFullYear now) +:+ "-"
    +:+ pretty (getMonth now + 1) +:+ "-"
    +:+ pretty (getDate now) +:+ "-"
    +:+ pretty (getHours now) +:+ "-"
    +:+ pretty (getMinutes now) +:+ ".sql".
Proof.
  unfold defaultFileName, datetime. cbn [js_plus js_to_string].
  by rewrite !string_app_assoc.
Qed.

(** X18: The default file name tells the minute: for one panel, two clicks are
    offered the same name exactly when year, month, day, hour and minute of
    the two moments agree. *)
Theorem defaultFileName_identifies_minute (p : Panel) (now now' : Date) :
  defaultFileName p now = defaultFileName p now' ↔ now = now'.
Proof.
  split; [|by intros ->].
  rewrite !defaultFileName_eq. intros Heq.
  apply (inj (String.app (targetName p))) in Heq.
  apply (inj (String.app "_Update_")) in Heq.
  apply split_at_char in Heq as [Hy Heq];
    [|apply pretty_nat_has_char; by left..].
  apply split_at_char in Heq as [Hm Heq];
    [|apply pretty_nat_has_char; by left..].
  apply split_at_char in Heq as [Hd Heq];
    [|apply pretty_nat_has_char; by left..].
  apply split_at_char in Heq as [Hh Heq];
    [|apply pretty_nat_has_char; by left..].
  apply split_at_char in Heq as [Hmin _];
    [|apply pretty_nat_has_char; by right..].
  apply (inj pretty) in Hy, Hm, Hd, Hh, Hmin.
  destruct now, now'; cbn in *. f_equal; lia.
Qed.
